(** * UserService: a shallow embedding of the user service and its store

    The service (user.service.ts) is a thin layer over an ORM: every method
    builds an options object, awaits one or more calls of the repository and
    translates failures.  The embedding keeps that shape.  The database is a
    [World] (the two tables, the log of external calls and the schedule of
    failures still to come), an awaited call is a computation in the monad
    [M], and [try]/[catch] is [tryCatch]. *)

From Stdlib Require Import ZArith List String Ascii Bool Lia.
From Stdlib Require Import Sorting.Sorted Sorting.Permutation.
From Stdlib Require Import Structures.OrderedTypeEx.
Import ListNotations.
Local Open Scope Z_scope.

(* ===================================================================== *)
(** ** Data model *)
(* ===================================================================== *)

(** A stored row of the users table. *)
Module Row.
Record t : Type := mk {
  id : Z;
  username : string;
  passwordHash : string;
  displayName : string;
  userRoleName : string;
  version : Z
}.
End Row.

(** A [User] model instance as the ORM hands it to the caller: an attribute
    that the query did not select is [undefined]. *)
Module User.
Record t : Type := mk {
  id : option Z;
  username : option string;
  passwordHash : option string;
  displayName : option string;
  userRoleName : option string;
  version : option Z
}.
End User.

(** Modelled from the spec: the session model is not among the sources; the
    data model only says that a session points to its user by foreign key. *)
Module Session.
Record t : Type := mk {
  id : Z;
  userId : Z
}.
End Session.

(** The input objects of the three mutations.  The spread [...data] in
    userCreate and userUpdate carries whatever the caller sent, so a
    [displayName] sent along is part of the input. *)
Module UserCreateInputDto.
Record t : Type := mk {
  username : string;
  passwordHash : string;
  firstName : string;
  secondName : string;
  middleName : string;
  userRoleName : string;
  displayName : option string
}.
End UserCreateInputDto.

Module UserUpdateInputDto.
Record t : Type := mk {
  id : Z;
  version : Z;
  username : string;
  passwordHash : string;
  firstName : string;
  secondName : string;
  middleName : string;
  userRoleName : string;
  displayName : option string
}.
End UserUpdateInputDto.

Module UserDeleteInputDto.
Record t : Type := mk {
  id : Z;
  version : Z
}.
End UserDeleteInputDto.

Module UserFindArgsDto.
Record t : Type := mk {
  ids : list Z;
  usernames : list string
}.
End UserFindArgsDto.

(** The attribute object given to [create] and [update]:
    [{...data, displayName: ..., passwordHash: hash}]. *)
Module Values.
Record t : Type := mk {
  id : option Z;
  version : option Z;
  username : string;
  passwordHash : string;
  displayName : string;
  userRoleName : string
}.
End Values.

(* ===================================================================== *)
(** ** Exceptions and results *)
(* ===================================================================== *)

(** What a rejected promise carries.  [DriverError] stands for anything the
    ORM, the database driver or bcrypt rejects with; a validator may attach a
    [messageCode] to it.  [TypeError] is the runtime's own. *)
Inductive Exception : Type :=
| DriverError (code : option string)
| TypeError
| BadRequestException
| MessageCodeError (code : string).

(** [error.messageCode] *)
Definition messageCode (error : Exception) : option string :=
  match error with
  | DriverError c => c
  | MessageCodeError c => Some c
  | TypeError | BadRequestException => None
  end.

Inductive Result (A : Type) : Type :=
| Ok (a : A)
| Throw (e : Exception).
Arguments Ok {A} a.
Arguments Throw {A} e.

(* ===================================================================== *)
(** ** Queries *)
(* ===================================================================== *)

Set Warnings "-register-all".

(** One key of a [where] object.  A [where] object is the list of its keys;
    [{}] is the empty list.  [IOr] is the key [[Op.or]] with the array of
    objects given for it. *)
Inductive Item : Type :=
| IId (v : Z)
| IUsername (v : string)
| IDisplayNameIRegexp (pattern : string)
| IOr (objects : list (list Item)).

Inductive Model : Type := UserRole.

Record FindOptions : Type := mkFindOptions {
  where_ : list Item;
  attributes : option (list string);
  include : list Model;
  limit : option Z;
  offset : option Z;
  order : list (string * string)
}.

(** A transaction handle.  The model keeps in it the tables as they were when
    the transaction was opened: rolling back puts them back. *)
Record Transaction : Type := mkTransaction {
  usersAtBegin : list Row.t;
  sessionsAtBegin : list Session.t
}.

(** The external calls a method can make, as they appear in the log. *)
Inductive Call : Type :=
| CallFindOne (options : FindOptions)
| CallFindAll (options : FindOptions)
| CallCreate (values : Values.t)
| CallUpdate (values : Values.t) (where_ : list Item)
| CallDestroy (where_ : list Item)
| CallTransaction
| CallCommit
| CallRollback
| CallDeleteAllSessions (userId : Z)
| CallHash (password : string) (rounds : Z).

(* ===================================================================== *)
(** ** The world and the monad of awaited calls *)
(* ===================================================================== *)

(** [faults] is the schedule of the external calls still to come: the next
    call fails with [e] when the head is [Some e] and goes through when it is
    [None] or when the schedule is exhausted. *)
Record World : Type := mkWorld {
  users : list Row.t;
  sessions : list Session.t;
  log : list Call;
  faults : list (option Exception)
}.

Definition M (A : Type) : Type := World -> Result A * World.

Definition ret {A : Type} (a : A) : M A := fun w => (Ok a, w).

Definition throw {A : Type} (e : Exception) : M A := fun w => (Throw e, w).

Definition bind {A B : Type} (m : M A) (k : A -> M B) : M B :=
  fun w =>
    match m w with
    | (Ok a, w') => k a w'
    | (Throw e, w') => (Throw e, w')
    end.

Definition tryCatch {A : Type} (body : M A) (handler : Exception -> M A) : M A :=
  fun w =>
    match body w with
    | (Ok a, w') => (Ok a, w')
    | (Throw e, w') => handler e w'
    end.

Notation "x <- m ;; k" := (bind m (fun x => k))
  (at level 61, m at next level, right associativity).
Notation "m ;;; k" := (bind m (fun _ => k))
  (at level 61, right associativity).

Definition setTables (us : list Row.t) (ss : list Session.t) (w : World) : World :=
  mkWorld us ss (log w) (faults w).

Definition record (c : Call) (w : World) : World :=
  mkWorld (users w) (sessions w) (log w ++ [c]) (faults w).

Definition popFault (w : World) : option Exception * World :=
  match faults w with
  | [] => (None, w)
  | f :: rest => (f, mkWorld (users w) (sessions w) (log w) rest)
  end.

(** One external call: it is logged, then it either fails as scheduled or
    runs. *)
Definition external {A : Type} (c : Call) (run : M A) : M A :=
  fun w =>
    match popFault (record c w) with
    | (Some e, w') => (Throw e, w')
    | (None, w') => run w'
    end.

(* ===================================================================== *)
(** ** The ORM *)
(* ===================================================================== *)

(** What the service takes from outside the repository: the bcrypt hash, the
    database's case-insensitive regular-expression operator (pattern first,
    subject second) and the default of the version column, which is declared
    in the model file. *)
Record Env : Type := mkEnv {
  bcryptHash : string -> Z -> string;
  iRegexp : string -> string -> bool;
  defaultVersion : Z
}.

(** [attributes: [...]] keeps the named attributes; without it every
    attribute is loaded. *)
Definition pick {A : Type} (attrs : option (list string)) (name : string) (v : A)
  : option A :=
  match attrs with
  | None => Some v
  | Some names => if existsb (String.eqb name) names then Some v else None
  end.

Definition instanceOf (attrs : option (list string)) (r : Row.t) : User.t :=
  User.mk
    (pick attrs "id" (Row.id r))
    (pick attrs "username" (Row.username r))
    (pick attrs "passwordHash" (Row.passwordHash r))
    (pick attrs "displayName" (Row.displayName r))
    (pick attrs "userRoleName" (Row.userRoleName r))
    (pick attrs "version" (Row.version r)).

Definition isEmptyObject (object : list Item) : bool :=
  match object with
  | [] => true
  | _ :: _ => false
  end.

(** Ascending order on [displayName]: a stable insertion sort, comparing
    code points. *)
Definition displayNameLe (a b : Row.t) : bool :=
  String.leb (Row.displayName a) (Row.displayName b).

Fixpoint insertRow (r : Row.t) (rows : list Row.t) : list Row.t :=
  match rows with
  | [] => [r]
  | x :: rest => if displayNameLe r x then r :: x :: rest else x :: insertRow r rest
  end.

Fixpoint sortByDisplayName (rows : list Row.t) : list Row.t :=
  match rows with
  | [] => []
  | r :: rest => insertRow r (sortByDisplayName rest)
  end.

(** The only ordering the service asks for is [[['displayName', 'ASC']]];
    without an [order] the rows come in table order. *)
Definition applyOrder (order : list (string * string)) (rows : list Row.t)
  : list Row.t :=
  match order with
  | [(column, direction)] =>
      if (String.eqb column "displayName" && String.eqb direction "ASC")%bool
      then sortByDisplayName rows
      else rows
  | _ => rows
  end.

Definition isNegative (n : option Z) : bool :=
  match n with
  | Some z => z <? 0
  | None => false
  end.

Definition applyOffset (offset : option Z) (rows : list Row.t) : list Row.t :=
  match offset with
  | Some n => skipn (Z.to_nat n) rows
  | None => rows
  end.

Definition applyLimit (limit : option Z) (rows : list Row.t) : list Row.t :=
  match limit with
  | Some n => firstn (Z.to_nat n) rows
  | None => rows
  end.

Definition nextId (rows : list Row.t) : Z :=
  1 + fold_right Z.max 0 (map Row.id rows).

Section Service.

Variable env : Env.

(** The reading of a [where] object by Sequelize's query generator.  The
    keys of an object are joined by AND, and an object without keys puts no
    restriction.  Of the objects under [[Op.or]] the generator drops those
    that put no restriction and joins the rest by OR; when none is left it
    writes [0 = 1], so that an [[Op.or]] over nothing selects no row.  This
    is what lets usersFind pass [{}] for a list it was not given: the empty
    object is dropped and the other condition decides alone. *)
Fixpoint whereItemQuery (item : Item) (r : Row.t) : bool :=
  match item with
  | IId v => Row.id r =? v
  | IUsername v => String.eqb (Row.username r) v
  | IDisplayNameIRegexp pattern => iRegexp env pattern (Row.displayName r)
  | IOr objects =>
      existsb
        (fun object =>
           negb (isEmptyObject object)
           && forallb (fun item' => whereItemQuery item' r) object)%bool
        objects
  end.

Definition whereItemsQuery (where_ : list Item) (r : Row.t) : bool :=
  forallb (fun item => whereItemQuery item r) where_.

Definition selectRows (o : FindOptions) (rows : list Row.t) : list Row.t :=
  applyLimit (limit o)
    (applyOffset (offset o)
       (applyOrder (order o)
          (filter (whereItemsQuery (where_ o)) rows))).

(** [findOne]: the first matching row, or [undefined]. *)
Definition findOne (o : FindOptions) : M (option User.t) :=
  external (CallFindOne o)
    (fun w =>
       (Ok (option_map (instanceOf (attributes o))
              (find (whereItemsQuery (where_ o)) (users w))), w)).

(** [findAll]: the database refuses a negative LIMIT or OFFSET. *)
Definition findAll (o : FindOptions) : M (list User.t) :=
  external (CallFindAll o)
    (fun w =>
       if (isNegative (limit o) || isNegative (offset o))%bool
       then (Throw (DriverError None), w)
       else (Ok (map (instanceOf (attributes o)) (selectRows o (users w))), w)).

Definition rowOfValues (freshId : Z) (v : Values.t) : Row.t :=
  Row.mk
    (match Values.id v with Some i => i | None => freshId end)
    (Values.username v)
    (Values.passwordHash v)
    (Values.displayName v)
    (Values.userRoleName v)
    (match Values.version v with Some n => n | None => defaultVersion env end).

(** [create]: one more row; the instance built from it is returned. *)
Definition create (v : Values.t) : M User.t :=
  external (CallCreate v)
    (fun w =>
       let r := rowOfValues (nextId (users w)) v in
       (Ok (instanceOf None r), setTables (users w ++ [r]) (sessions w) w)).

Definition assign (v : Values.t) (r : Row.t) : Row.t :=
  Row.mk
    (match Values.id v with Some i => i | None => Row.id r end)
    (Values.username v)
    (Values.passwordHash v)
    (Values.displayName v)
    (Values.userRoleName v)
    (match Values.version v with Some n => n | None => Row.version r end).

(** [update] with [returning: true]: the matching rows take the values, and
    the result is the pair of their number and the rows as they now are. *)
Definition update (v : Values.t) (where_ : list Item) : M (Z * list User.t) :=
  external (CallUpdate v where_)
    (fun w =>
       let hit := whereItemsQuery where_ in
       let rows := map (fun r => if hit r then assign v r else r) (users w) in
       let changed := map (assign v) (filter hit (users w)) in
       (Ok (Z.of_nat (List.length changed), map (instanceOf None) changed),
        setTables rows (sessions w) w)).

(** [destroy]: the matching rows go; the result is their number. *)
Definition destroy (where_ : list Item) (transaction : Transaction) : M Z :=
  external (CallDestroy where_)
    (fun w =>
       let hit := whereItemsQuery where_ in
       (Ok (Z.of_nat (List.length (filter hit (users w)))),
        setTables (filter (fun r => negb (hit r)) (users w)) (sessions w) w)).

(** [SEQUELIZE.transaction()] *)
Definition transaction : M Transaction :=
  external CallTransaction
    (fun w => (Ok (mkTransaction (users w) (sessions w)), w)).

Definition restore (t : Transaction) (w : World) : World :=
  setTables (usersAtBegin t) (sessionsAtBegin t) w.

(** [transaction.commit()], not awaited: when the commit fails the database
    drops the work of the transaction, and the rejection reaches nobody. *)
Definition commit (t : Transaction) : M unit :=
  fun w =>
    match external CallCommit (ret tt) w with
    | (Ok _, w') => (Ok tt, w')
    | (Throw _, w') => (Ok tt, restore t w')
    end.

(** [transaction.rollback()], not awaited either: the work of the
    transaction is dropped. *)
Definition rollback (t : Transaction) : M unit :=
  fun w => (Ok tt, restore t (record CallRollback w)).

(** Modelled from the spec: SessionService.deleteAllSessions is not among
    the sources; the cascade delete "deletes all of that user's sessions". *)
Definition deleteAllSessions (id : Z) (t : Transaction) : M unit :=
  external (CallDeleteAllSessions id)
    (fun w =>
       (Ok tt,
        setTables (users w)
          (filter (fun s => negb (Session.userId s =? id)) (sessions w)) w)).

(** [bcrypt.hash(password, rounds)] *)
Definition hash (password : string) (rounds : Z) : M string :=
  external (CallHash password rounds)
    (ret (bcryptHash env password rounds)).

End Service.

(* ===================================================================== *)
(** ** UserService *)
(* ===================================================================== *)

Section UserService.

Local Open Scope string_scope.

Variable env : Env.

Definition includedModels : list Model := [UserRole].

Definition userFind (username : string) : M (option User.t) :=
  tryCatch
    (res <- findOne env
              {| where_ := [IUsername username];
                 attributes := Some ["id"; "userRoleName"; "username"; "passwordHash"];
                 include := []; limit := None; offset := None; order := [] |} ;;
     ret res)
    (fun error => throw BadRequestException).

Definition userRoleFind (id : Z) : M (option User.t) :=
  tryCatch
    (res <- findOne env
              {| where_ := [IId id];
                 attributes := Some ["userRoleName"];
                 include := []; limit := None; offset := None; order := [] |} ;;
     ret res)
    (fun error => throw BadRequestException).

Definition checkVersionOptions (id : Z) : FindOptions :=
  {| where_ := [IId id];
     attributes := Some ["version"];
     include := []; limit := None; offset := None; order := [] |}.

Definition checkVersion (id : Z) : M (option User.t) :=
  tryCatch
    (findOne env (checkVersionOptions id))
    (fun error => throw BadRequestException).

Definition userNameFindOptions (username : string) : FindOptions :=
  {| where_ := [IUsername username];
     attributes := Some ["id"; "username"];
     include := []; limit := None; offset := None; order := [] |}.

Definition userNameFind (username : string) : M (option User.t) :=
  tryCatch
    (res <- findOne env (userNameFindOptions username) ;;
     ret res)
    (fun error => throw BadRequestException).

Definition user (id : Z) : M (option User.t) :=
  tryCatch
    (findOne env
       {| where_ := [IId id];
          attributes := None;
          include := includedModels; limit := None; offset := None; order := [] |})
    (fun error => throw BadRequestException).

(** lodash's [isEmpty] on the text filter: a missing filter and the empty
    string are both empty. *)
Definition isEmpty (textFilter : option string) : bool :=
  match textFilter with
  | None => true
  | Some s => String.eqb s EmptyString
  end.

Definition iRegexpOf (textFilter : option string) : string :=
  match textFilter with
  | None => EmptyString
  | Some s => if isEmpty textFilter then EmptyString else "(^" ++ s ++ ")|( " ++ s ++ ")"
  end.

Definition userListOptions (textFilter : option string) (page paging : Z)
  : FindOptions :=
  {| limit := Some paging;
     offset := Some ((page - 1) * paging);
     include := includedModels;
     where_ := [IDisplayNameIRegexp (iRegexpOf textFilter)];
     attributes := None;
     order := [("displayName", "ASC")] |}.

Definition userList (textFilter : option string) (page paging : Z)
  : M (list User.t) :=
  tryCatch
    (findAll env (userListOptions textFilter page paging))
    (fun error => throw BadRequestException).

Definition loginWhereCondition (data : UserFindArgsDto.t) : list Item :=
  if (0 <? List.length (UserFindArgsDto.usernames data))%nat
  then [IOr (map (fun username => [IUsername username])
               (UserFindArgsDto.usernames data))]
  else [].

Definition idWhereCondition (data : UserFindArgsDto.t) : list Item :=
  if (0 <? List.length (UserFindArgsDto.ids data))%nat
  then [IOr (map (fun id => [IId id]) (UserFindArgsDto.ids data))]
  else [].

Definition usersFindOptions (data : UserFindArgsDto.t) : FindOptions :=
  {| include := includedModels;
     where_ := [IOr [idWhereCondition data; loginWhereCondition data]];
     attributes := None; limit := None; offset := None; order := [] |}.

Definition usersFind (data : UserFindArgsDto.t) : M (list User.t) :=
  tryCatch
    (findAll env (usersFindOptions data))
    (fun error => throw BadRequestException).

Definition hashPassword (password : string) (rounds : Z) : M string :=
  hash env password rounds.

Definition notUniqueUserName : string := "user:validate:notUniqueUserName".
Definition unableToCreateUser : string := "user:create:unableToCreateUser".
Definition unableToUpdateUser : string := "user:update:unableToUpdateUser".

Definition hasMessageCode (error : Exception) (code : string) : bool :=
  match messageCode error with
  | Some c => String.eqb c code
  | None => false
  end.

(** The template literal [`${secondName} ${firstName} ${middleName}`]. *)
Definition displayNameOf (secondName firstName middleName : string) : string :=
  secondName ++ " " ++ firstName ++ " " ++ middleName.

(** [{...data, displayName: `...`, passwordHash: hash}] in userCreate: the
    two keys written after the spread replace what the spread brought. *)
Definition userCreateValues (data : UserCreateInputDto.t) (hash : string)
  : Values.t :=
  {| Values.id := None;
     Values.version := None;
     Values.username := UserCreateInputDto.username data;
     Values.userRoleName := UserCreateInputDto.userRoleName data;
     Values.displayName :=
       displayNameOf (UserCreateInputDto.secondName data)
         (UserCreateInputDto.firstName data)
         (UserCreateInputDto.middleName data);
     Values.passwordHash := hash |}.

(** The same object in userUpdate, where the spread also brings [id] and
    [version]. *)
Definition userUpdateValues (data : UserUpdateInputDto.t) (hash : string)
  : Values.t :=
  {| Values.id := Some (UserUpdateInputDto.id data);
     Values.version := Some (UserUpdateInputDto.version data);
     Values.username := UserUpdateInputDto.username data;
     Values.userRoleName := UserUpdateInputDto.userRoleName data;
     Values.displayName :=
       displayNameOf (UserUpdateInputDto.secondName data)
         (UserUpdateInputDto.firstName data)
         (UserUpdateInputDto.middleName data);
     Values.passwordHash := hash |}.

(** The body of userCreate, as written under its decorator. *)
Definition userCreate (data : UserCreateInputDto.t) : M User.t :=
  tryCatch
    (hash <- hashPassword (UserCreateInputDto.passwordHash data) 12 ;;
     create env (userCreateValues data hash))
    (fun error =>
       if hasMessageCode error notUniqueUserName
       then throw (MessageCodeError notUniqueUserName)
       else throw (MessageCodeError unableToCreateUser)).

(** The body of userUpdate.  [const [, [val]] = res] takes the first of the
    returned rows, [undefined] when there is none. *)
Definition userUpdate (data : UserUpdateInputDto.t) : M (option User.t) :=
  tryCatch
    (hash <- hashPassword (UserUpdateInputDto.passwordHash data) 12 ;;
     res <- update env (userUpdateValues data hash)
              [IId (UserUpdateInputDto.id data)] ;;
     let val := hd_error (snd res) in
     ret val)
    (fun error =>
       if hasMessageCode error notUniqueUserName
       then throw (MessageCodeError notUniqueUserName)
       else throw (MessageCodeError unableToUpdateUser)).

(** The body of userDelete.  [transaction] is assigned by the first
    statement of the [try] block: when opening the transaction fails, the
    variable is still [undefined] in the handler and [transaction.rollback()]
    raises a TypeError there. *)
Definition userDelete (data : UserDeleteInputDto.t) : M Z :=
  let id := UserDeleteInputDto.id data in
  fun w =>
    match transaction w with
    | (Throw _, w1) => (Throw TypeError, w1)
    | (Ok transaction, w1) =>
        tryCatch
          (deleteAllSessions id transaction ;;;
           result <- destroy env [IId id] transaction ;;
           commit transaction ;;;
           ret result)
          (fun error =>
             rollback transaction ;;;
             throw BadRequestException)
          w1
    end.

(** *** The decorators *)

(** The message codes of the two errors of the version check are declared
    with the decorator and are left open here. *)
Variable versionConflictCode : string.
Variable rowNotFoundCode : string.

(** Modelled from the spec: the decorator OptimisticLocking is declared in
    common/decorators, which is not among the sources.  "Before
    mutating/deleting a row, re-read its version column and compare to the
    caller-supplied version; mismatch signals a conflict error distinct from
    not-found."  The spec does not say what the flag of the decorator
    selects; the check does not depend on it. *)
Definition OptimisticLocking {D A : Type} (flag : bool)
  (idOf versionOf : D -> Z) (method : D -> M A) (data : D) : M A :=
  current <- checkVersion (idOf data) ;;
  match current with
  | None => throw (MessageCodeError rowNotFoundCode)
  | Some row =>
      match User.version row with
      | Some v =>
          if (v =? versionOf data)%Z
          then method data
          else throw (MessageCodeError versionConflictCode)
      | None => throw (MessageCodeError versionConflictCode)
      end
  end.

Definition sameId (found current : option Z) : bool :=
  match found, current with
  | Some a, Some b => (a =? b)%Z
  | _, _ => false
  end.

(** Modelled from the spec: the decorator CheckIsValueUnique is declared in
    common/decorators, which is not among the sources.  "Before insert/update
    of a unique field (e.g. username), query for an existing row with that
    value (excluding the current id on update); if found, fail with a
    domain-specific 'not unique' error." *)
Definition CheckIsValueUnique {D A : Type} (finder : string -> M (option User.t))
  (valueOf : D -> string) (currentId : D -> option Z) (code : string)
  (method : D -> M A) (data : D) : M A :=
  found <- finder (valueOf data) ;;
  match found with
  | None => method data
  | Some row =>
      if sameId (User.id row) (currentId data)
      then method data
      else throw (MessageCodeError code)
  end.

(** The three mutations as the class exports them, under their decorators. *)
Definition decorated_userCreate : UserCreateInputDto.t -> M User.t :=
  CheckIsValueUnique userNameFind UserCreateInputDto.username
    (fun _ => None) notUniqueUserName userCreate.

Definition decorated_userUpdate : UserUpdateInputDto.t -> M (option User.t) :=
  OptimisticLocking true UserUpdateInputDto.id UserUpdateInputDto.version
    (CheckIsValueUnique userNameFind UserUpdateInputDto.username
       (fun data => Some (UserUpdateInputDto.id data)) notUniqueUserName
       userUpdate).

Definition decorated_userDelete : UserDeleteInputDto.t -> M Z :=
  OptimisticLocking false UserDeleteInputDto.id UserDeleteInputDto.version
    userDelete.

End UserService.

(* ===================================================================== *)
(** ** Vocabulary of the statements *)
(* ===================================================================== *)

(** The outcome scheduled for the [n]-th external call from now. *)
Definition fault (n : nat) (w : World) : option Exception :=
  nth n (faults w) None.

(** The world once the call [c] has been made. *)
Definition advance (c : Call) (w : World) : World :=
  mkWorld (users w) (sessions w) (log w ++ [c]) (tl (faults w)).

Definition sameTables (w w' : World) : Prop :=
  users w' = users w /\ sessions w' = sessions w.

(** A result that is a value, or one of the allowed exceptions. *)
Definition throwsOnly {A : Type} (allowed : Exception -> Prop) (r : Result A)
  : Prop :=
  match r with
  | Ok _ => True
  | Throw e => allowed e
  end.

Definition isBadRequest (e : Exception) : Prop := e = BadRequestException.

(** The call failed with [e], after exactly one external call and without
    touching the tables. *)
Definition failedOnce {A : Type} (e : Exception) (w : World)
  (out : Result A * World) : Prop :=
  fst out = Throw e
  /\ sameTables w (snd out)
  /\ List.length (log (snd out)) = S (List.length (log w)).

(** The number of external calls made between two worlds. *)
Definition callsMade (w w' : World) : nat :=
  (List.length (log w') - List.length (log w))%nat.

Definition isMessageCode (codes : list string) (e : Exception) : Prop :=
  exists c, In c codes /\ e = MessageCodeError c.

(** What a mutation hands back to its caller, as a runtime value. *)
Inductive Returned : Type :=
| ReturnedUser (u : User.t)
| ReturnedUndefined
| ReturnedNumber (n : Z).

Definition isUserDto (v : Returned) : bool :=
  match v with
  | ReturnedUser _ => true
  | ReturnedUndefined | ReturnedNumber _ => false
  end.

Inductive Mutation : Type :=
| MutationCreate (data : UserCreateInputDto.t)
| MutationUpdate (data : UserUpdateInputDto.t)
| MutationDelete (data : UserDeleteInputDto.t).

Definition mapResult {A B : Type} (f : A -> B) (m : M A) : M B :=
  fun w =>
    match m w with
    | (Ok a, w') => (Ok (f a), w')
    | (Throw e, w') => (Throw e, w')
    end.

Definition mutate (env : Env) (m : Mutation) : M Returned :=
  match m with
  | MutationCreate data => mapResult ReturnedUser (userCreate env data)
  | MutationUpdate data =>
      mapResult
        (fun val => match val with
                    | Some u => ReturnedUser u
                    | None => ReturnedUndefined
                    end)
        (userUpdate env data)
  | MutationDelete data => mapResult ReturnedNumber (userDelete env data)
  end.

(** The listing that userList is compared with: the same page of the same
    ordering, with no condition on the rows. *)
Definition unfilteredListOptions (page paging : Z) : FindOptions :=
  {| limit := Some paging;
     offset := Some ((page - 1) * paging);
     include := includedModels;
     where_ := [];
     attributes := None;
     order := [("displayName", "ASC")%string] |}.

Definition unfilteredList (env : Env) (page paging : Z) : M (list User.t) :=
  tryCatch
    (findAll env (unfilteredListOptions page paging))
    (fun error => throw BadRequestException).

Definition displayNameOrder (a b : Row.t) : Prop :=
  displayNameLe a b = true.

(** The rows usersFind asks for: an id among [ids] or a username among
    [usernames]. *)
Definition wanted (data : UserFindArgsDto.t) (r : Row.t) : bool :=
  existsb (fun id => Row.id r =? id) (UserFindArgsDto.ids data)
  || existsb (fun username => String.eqb (Row.username r) username)
       (UserFindArgsDto.usernames data).

(* ===================================================================== *)
(** ** A small installation, for running the model *)
(* ===================================================================== *)

Definition lowerAscii (c : ascii) : ascii :=
  let n := nat_of_ascii c in
  if ((65 <=? n) && (n <=? 90))%nat then ascii_of_nat (n + 32) else c.

Fixpoint lower (s : string) : string :=
  match s with
  | EmptyString => EmptyString
  | String c rest => String (lowerAscii c) (lower rest)
  end.

Fixpoint occursIn (p s : string) : bool :=
  String.prefix p s
  || match s with
     | EmptyString => false
     | String _ rest => occursIn p rest
     end.

(** A matcher for the patterns userList builds from a filter without
    metacharacters: the empty pattern matches every subject, and
    [(^t)|( t)] matches a subject that starts with [t] or has [t] after a
    blank, letter case ignored. *)
Definition literalIRegexp (pattern subject : string) : bool :=
  if String.eqb pattern EmptyString then true
  else
    let t := substring 2 ((String.length pattern - 7) / 2) pattern in
    if String.eqb pattern ("(^" ++ t ++ ")|( " ++ t ++ ")")%string
    then String.prefix (lower t) (lower subject)
         || occursIn (lower (" " ++ t)%string) (lower subject)
    else false.

Definition demoEnv : Env :=
  mkEnv (fun password rounds => ("$2b$12$" ++ password)%string) literalIRegexp 1.

Definition petrov : Row.t :=
  Row.mk 1 "petrov" "$2b$12$p1" "Petrov Ivan Ilyich" "admin" 1.
Definition ivanova : Row.t :=
  Row.mk 2 "ivanova" "$2b$12$p2" "Ivanova Anna Petrovna" "user" 3.
Definition sidorov : Row.t :=
  Row.mk 3 "sidorov" "$2b$12$p3" "Sidorov Ilya Ivanovich" "user" 1.

Definition demoWorld : World :=
  mkWorld [petrov; ivanova; sidorov]
    [Session.mk 10 1; Session.mk 11 2; Session.mk 12 1] [] [].

Definition demoCreate : UserCreateInputDto.t :=
  UserCreateInputDto.mk "orlov" "secret" "Oleg" "Orlov" "Olegovich" "user"
    (Some "someone else"%string).

Definition demoUpdate : UserUpdateInputDto.t :=
  UserUpdateInputDto.mk 2 3 "ivanova" "secret" "Anna" "Ivanova" "Pavlovna" "user"
    (Some "someone else"%string).

Definition demoDelete : UserDeleteInputDto.t := UserDeleteInputDto.mk 1 1.

(** The code a mutation surfaces for the failure [e]: the uniqueness code
    when [e] carries it, the mutation's own code otherwise. *)
Definition surfacedCode (fallback : string) (e : Exception) : string :=
  if hasMessageCode e notUniqueUserName then notUniqueUserName else fallback.

(** The call failed with [e] after [n] external calls, the tables as they
    were. *)
Definition failedAfter {A : Type} (n : nat) (e : Exception) (w : World)
  (out : Result A * World) : Prop :=
  fst out = Throw e
  /\ sameTables w (snd out)
  /\ callsMade w (snd out) = n.

(** The tables once the user [id] and the sessions of [id] are gone. *)
Definition usersWithout (id : Z) (rows : list Row.t) : list Row.t :=
  filter (fun r => negb (Row.id r =? id)) rows.

Definition sessionsWithout (id : Z) (ss : list Session.t) : list Session.t :=
  filter (fun s => negb (Session.userId s =? id)) ss.

Definition bothRemoved (id : Z) (w w' : World) : Prop :=
  users w' = usersWithout id (users w)
  /\ sessions w' = sessionsWithout id (sessions w).

(** The rows whose displayName the pattern built from the filter matches. *)
Definition matchesFilter (env : Env) (textFilter : option string) (r : Row.t)
  : bool :=
  iRegexp env (iRegexpOf textFilter) (Row.displayName r).

(** One page: [paging] rows after the first [(page - 1) * paging]. *)
Definition pageOf (page paging : Z) (rows : list Row.t) : list Row.t :=
  firstn (Z.to_nat paging) (skipn (Z.to_nat ((page - 1) * paging)) rows).

(** The row userCreate adds to [rows], and the values userUpdate writes. *)
Definition createdRow (env : Env) (data : UserCreateInputDto.t)
  (rows : list Row.t) : Row.t :=
  rowOfValues env (nextId rows)
    (userCreateValues data
       (bcryptHash env (UserCreateInputDto.passwordHash data) 12)).

Definition writtenValues (env : Env) (data : UserUpdateInputDto.t) : Values.t :=
  userUpdateValues data
    (bcryptHash env (UserUpdateInputDto.passwordHash data) 12).

Definition hasId (id : Z) (r : Row.t) : bool := Row.id r =? id.

(** The same installation with the next external call failing, and with the
    second one failing on a validation of the username. *)
Definition brokenWorld : World :=
  mkWorld (users demoWorld) (sessions demoWorld) [] [Some (DriverError None)].

Definition lateBrokenWorld : World :=
  mkWorld (users demoWorld) (sessions demoWorld) []
    [None; Some (DriverError (Some notUniqueUserName))].

Definition staleUpdate : UserUpdateInputDto.t :=
  UserUpdateInputDto.mk 2 2 "ivanova" "secret" "Anna" "Ivanova" "Pavlovna" "user"
    None.

Definition staleDelete : UserDeleteInputDto.t := UserDeleteInputDto.mk 1 7.

Definition takenCreate : UserCreateInputDto.t :=
  UserCreateInputDto.mk "petrov" "secret" "Pyotr" "Petrov" "Petrovich" "user" None.

Definition takenUpdate : UserUpdateInputDto.t :=
  UserUpdateInputDto.mk 2 3 "sidorov" "secret" "Anna" "Ivanova" "Pavlovna" "user"
    None.

(** A read: the tables as they were, one external call made, one entry of
    the schedule used. *)
Definition readOnce {A : Type} (w : World) (out : Result A * World) : Prop :=
  sameTables w (snd out)
  /\ callsMade w (snd out) = 1%nat
  /\ faults (snd out) = tl (faults w).

Definition isLoaded {A : Type} (attribute : option A) : bool :=
  match attribute with
  | Some _ => true
  | None => false
  end.

(** Which attributes an instance carries, in the order id, username,
    passwordHash, displayName, userRoleName, version. *)
Definition loaded (u : User.t) : list bool :=
  [isLoaded (User.id u); isLoaded (User.username u);
   isLoaded (User.passwordHash u); isLoaded (User.displayName u);
   isLoaded (User.userRoleName u); isLoaded (User.version u)].

(** The users of an answer, none when the call failed. *)
Definition usersOf (r : Result (list User.t)) : list User.t :=
  match r with
  | Ok l => l
  | Throw _ => []
  end.

(** No external call is scheduled to fail. *)
Definition quiet (w : World) : Prop := forall n, fault n w = None.

(* ===================================================================== *)
(** * Properties *)
(* ===================================================================== *)

(** ** External calls *)

Section Calls.

Context {A : Type}.

Lemma external_goes_through (c : Call) (run : M A) (w : World) :
  fault 0 w = None -> external c run w = run (advance c w).
Proof.
  destruct w as [us ss lg fs].
  unfold fault, external, popFault, record, advance; simpl.
  destruct fs as [| [e |] rest]; simpl; intros H; try discriminate; reflexivity.
Qed.

Lemma external_fails (c : Call) (run : M A) (w : World) (e : Exception) :
  fault 0 w = Some e -> external c run w = (Throw e, advance c w).
Proof.
  destruct w as [us ss lg fs].
  unfold fault, external, popFault, record, advance; simpl.
  destruct fs as [| [e' |] rest]; simpl; intros H; try discriminate.
  now inversion H.
Qed.

End Calls.

Lemma fault_advance (n : nat) (c : Call) (w : World) :
  fault n (advance c w) = fault (S n) w.
Proof.
  unfold fault, advance; simpl.
  destruct (faults w) as [| f rest]; simpl; [now destruct n | reflexivity].
Qed.

Lemma fault_cases (w : World) :
  fault 0 w = None \/ exists e, fault 0 w = Some e.
Proof.
  destruct (fault 0 w) as [e |]; [right; now exists e | now left].
Qed.

(** Steps the first external call of a goal, along the schedule. *)
Ltac step_ok H :=
  rewrite external_goes_through by exact H; simpl.
Ltac step_fail H :=
  erewrite external_fails by exact H; simpl.

(** ** Reads *)

Lemma length_log_advance (c : Call) (w : World) :
  List.length (log (advance c w)) = S (List.length (log w)).
Proof.
  unfold advance; simpl. rewrite length_app; simpl. lia.
Qed.

Section Reads.

Variable env : Env.

Lemma findOne_guarded_fails (o : FindOptions) (w : World) (e : Exception) :
  fault 0 w = Some e ->
  failedOnce BadRequestException w
    (tryCatch (findOne env o) (fun _ => throw BadRequestException) w).
Proof.
  intros H. unfold tryCatch, findOne. step_fail H.
  repeat split. apply length_log_advance.
Qed.

Lemma findOne_guarded_throws (o : FindOptions) (w : World) :
  throwsOnly isBadRequest
    (fst (tryCatch (findOne env o) (fun _ => throw BadRequestException) w)).
Proof.
  unfold tryCatch, findOne.
  destruct (fault_cases w) as [H | [e H]]; [step_ok H | step_fail H];
    simpl; [exact I | reflexivity].
Qed.

Lemma findAll_guarded_fails (o : FindOptions) (w : World) (e : Exception) :
  fault 0 w = Some e ->
  failedOnce BadRequestException w
    (tryCatch (findAll env o) (fun _ => throw BadRequestException) w).
Proof.
  intros H. unfold tryCatch, findAll. step_fail H.
  repeat split. apply length_log_advance.
Qed.

Lemma findAll_guarded_throws (o : FindOptions) (w : World) :
  throwsOnly isBadRequest
    (fst (tryCatch (findAll env o) (fun _ => throw BadRequestException) w)).
Proof.
  unfold tryCatch, findAll.
  destruct (fault_cases w) as [H | [e H]]; [step_ok H | step_fail H].
  - destruct (isNegative (limit o) || isNegative (offset o))%bool; simpl;
      [reflexivity | exact I].
  - reflexivity.
Qed.

(** [res <- m ;; ret res] is [m]. *)
Lemma bind_ret {A : Type} (m : M A) (w : World) :
  (res <- m ;; ret res) w = m w.
Proof.
  unfold bind, ret. destruct (m w) as [[a | e] w']; reflexivity.
Qed.

Lemma tryCatch_bind_ret {A : Type} (m : M A) (h : Exception -> M A) (w : World) :
  tryCatch (res <- m ;; ret res) h w = tryCatch m h w.
Proof.
  unfold tryCatch. now rewrite bind_ret.
Qed.

End Reads.

Section ReadFailures.

Variable env : Env.

Lemma reads_throw_bad_request_only (w : World) :
  (forall username, throwsOnly isBadRequest (fst (userFind env username w)))
  /\ (forall id, throwsOnly isBadRequest (fst (userRoleFind env id w)))
  /\ (forall id, throwsOnly isBadRequest (fst (checkVersion env id w)))
  /\ (forall username, throwsOnly isBadRequest (fst (userNameFind env username w)))
  /\ (forall id, throwsOnly isBadRequest (fst (user env id w)))
  /\ (forall textFilter page paging,
        throwsOnly isBadRequest (fst (userList env textFilter page paging w)))
  /\ (forall data, throwsOnly isBadRequest (fst (usersFind env data w))).
Proof.
  repeat split; intros;
    unfold userFind, userRoleFind, checkVersion, userNameFind, user, userList,
      usersFind;
    rewrite ?tryCatch_bind_ret;
    first [apply findOne_guarded_throws | apply findAll_guarded_throws].
Qed.

Lemma read_failure_surfaced (w : World) (e : Exception) :
  fault 0 w = Some e ->
  (forall username, failedOnce BadRequestException w (userFind env username w))
  /\ (forall id, failedOnce BadRequestException w (userRoleFind env id w))
  /\ (forall id, failedOnce BadRequestException w (checkVersion env id w))
  /\ (forall username,
        failedOnce BadRequestException w (userNameFind env username w))
  /\ (forall id, failedOnce BadRequestException w (user env id w))
  /\ (forall textFilter page paging,
        failedOnce BadRequestException w (userList env textFilter page paging w))
  /\ (forall data, failedOnce BadRequestException w (usersFind env data w)).
Proof.
  intros H.
  repeat split; intros;
    unfold userFind, userRoleFind, checkVersion, userNameFind, user, userList,
      usersFind;
    rewrite ?tryCatch_bind_ret;
    first [now apply (findOne_guarded_fails env _ w e)
          | now apply (findAll_guarded_fails env _ w e)].
Qed.

End ReadFailures.

(** ** Failures of the mutations *)

Lemma callsMade_advance (c : Call) (w : World) :
  callsMade w (advance c w) = 1%nat.
Proof.
  unfold callsMade. rewrite length_log_advance. lia.
Qed.

Lemma callsMade_advance2 (c1 c2 : Call) (w : World) :
  callsMade w (advance c2 (advance c1 w)) = 2%nat.
Proof.
  unfold callsMade. rewrite !length_log_advance. lia.
Qed.

Lemma surfacedCode_allowed (fallback : string) (e : Exception) :
  isMessageCode [notUniqueUserName; fallback]
    (MessageCodeError (surfacedCode fallback e)).
Proof.
  unfold surfacedCode.
  destruct (hasMessageCode e notUniqueUserName);
    eexists; (split; [| reflexivity]); simpl; auto.
Qed.

Section MutationFailures.

Variable env : Env.

Lemma userCreate_hash_fails data (w : World) (e : Exception) :
  fault 0 w = Some e ->
  failedAfter 1 (MessageCodeError (surfacedCode unableToCreateUser e)) w
    (userCreate env data w).
Proof.
  intros H. unfold userCreate, tryCatch, bind, hashPassword, hash.
  step_fail H. unfold surfacedCode.
  destruct (hasMessageCode e notUniqueUserName); simpl;
    (repeat split; apply callsMade_advance).
Qed.

Lemma userCreate_insert_fails data (w : World) (e : Exception) :
  fault 0 w = None -> fault 1 w = Some e ->
  failedAfter 2 (MessageCodeError (surfacedCode unableToCreateUser e)) w
    (userCreate env data w).
Proof.
  intros H0 H1. unfold userCreate, tryCatch, bind, hashPassword, hash.
  step_ok H0. unfold ret, create.
  rewrite <- fault_advance
    with (c := CallHash (UserCreateInputDto.passwordHash data) 12) in H1.
  step_fail H1. unfold surfacedCode.
  destruct (hasMessageCode e notUniqueUserName); simpl;
    (repeat split; apply callsMade_advance2).
Qed.

Lemma userCreate_throws data (w : World) :
  throwsOnly (isMessageCode [notUniqueUserName; unableToCreateUser])
    (fst (userCreate env data w)).
Proof.
  destruct (fault_cases w) as [H0 | [e H0]].
  - destruct (fault_cases
                (advance (CallHash (UserCreateInputDto.passwordHash data) 12) w))
      as [H1 | [e H1]].
    + unfold userCreate, tryCatch, bind, hashPassword, hash.
      step_ok H0. unfold ret, create. step_ok H1. exact I.
    + rewrite fault_advance in H1.
      destruct (userCreate_insert_fails data w e H0 H1) as [E _].
      rewrite E. apply surfacedCode_allowed.
  - destruct (userCreate_hash_fails data w e H0) as [E _].
    rewrite E. apply surfacedCode_allowed.
Qed.

Lemma userUpdate_hash_fails data (w : World) (e : Exception) :
  fault 0 w = Some e ->
  failedAfter 1 (MessageCodeError (surfacedCode unableToUpdateUser e)) w
    (userUpdate env data w).
Proof.
  intros H. unfold userUpdate, tryCatch, bind, hashPassword, hash.
  step_fail H. unfold surfacedCode.
  destruct (hasMessageCode e notUniqueUserName); simpl;
    (repeat split; apply callsMade_advance).
Qed.

Lemma userUpdate_write_fails data (w : World) (e : Exception) :
  fault 0 w = None -> fault 1 w = Some e ->
  failedAfter 2 (MessageCodeError (surfacedCode unableToUpdateUser e)) w
    (userUpdate env data w).
Proof.
  intros H0 H1. unfold userUpdate, tryCatch, bind, hashPassword, hash.
  step_ok H0. unfold ret, update.
  rewrite <- fault_advance
    with (c := CallHash (UserUpdateInputDto.passwordHash data) 12) in H1.
  step_fail H1. unfold surfacedCode.
  destruct (hasMessageCode e notUniqueUserName); simpl;
    (repeat split; apply callsMade_advance2).
Qed.

Lemma userUpdate_throws data (w : World) :
  throwsOnly (isMessageCode [notUniqueUserName; unableToUpdateUser])
    (fst (userUpdate env data w)).
Proof.
  destruct (fault_cases w) as [H0 | [e H0]].
  - destruct (fault_cases
                (advance (CallHash (UserUpdateInputDto.passwordHash data) 12) w))
      as [H1 | [e H1]].
    + unfold userUpdate, tryCatch, bind, hashPassword, hash.
      step_ok H0. unfold ret, update. step_ok H1. exact I.
    + rewrite fault_advance in H1.
      destruct (userUpdate_write_fails data w e H0 H1) as [E _].
      rewrite E. apply surfacedCode_allowed.
  - destruct (userUpdate_hash_fails data w e H0) as [E _].
    rewrite E. apply surfacedCode_allowed.
Qed.

End MutationFailures.

(** C6: every read surfaces a failure of its underlying call as a generic
    bad request and throws nothing else; userCreate and userUpdate surface a
    failure of the hash or of the write as a message-coded error, the
    uniqueness code when the failure carries it and the mutation's own code
    otherwise; in every case the failed call is made once and not
    repeated. *)
Theorem failures_surface_once (env : Env) (w : World) (e : Exception) :
  (fault 0 w = Some e ->
     (forall username, failedOnce BadRequestException w (userFind env username w))
     /\ (forall id, failedOnce BadRequestException w (userRoleFind env id w))
     /\ (forall id, failedOnce BadRequestException w (checkVersion env id w))
     /\ (forall username,
           failedOnce BadRequestException w (userNameFind env username w))
     /\ (forall id, failedOnce BadRequestException w (user env id w))
     /\ (forall textFilter page paging,
           failedOnce BadRequestException w
             (userList env textFilter page paging w))
     /\ (forall data, failedOnce BadRequestException w (usersFind env data w))
     /\ (forall data,
           failedAfter 1 (MessageCodeError (surfacedCode unableToCreateUser e)) w
             (userCreate env data w))
     /\ (forall data,
           failedAfter 1 (MessageCodeError (surfacedCode unableToUpdateUser e)) w
             (userUpdate env data w)))
  /\ (fault 0 w = None -> fault 1 w = Some e ->
        (forall data,
           failedAfter 2 (MessageCodeError (surfacedCode unableToCreateUser e)) w
             (userCreate env data w))
        /\ (forall data,
              failedAfter 2 (MessageCodeError (surfacedCode unableToUpdateUser e)) w
                (userUpdate env data w)))
  /\ (forall fallback,
        surfacedCode fallback (DriverError (Some notUniqueUserName))
        = notUniqueUserName
        /\ surfacedCode fallback (DriverError None) = fallback)
  /\ (forall username, throwsOnly isBadRequest (fst (userFind env username w)))
  /\ (forall id, throwsOnly isBadRequest (fst (userRoleFind env id w)))
  /\ (forall id, throwsOnly isBadRequest (fst (checkVersion env id w)))
  /\ (forall username, throwsOnly isBadRequest (fst (userNameFind env username w)))
  /\ (forall id, throwsOnly isBadRequest (fst (user env id w)))
  /\ (forall textFilter page paging,
        throwsOnly isBadRequest (fst (userList env textFilter page paging w)))
  /\ (forall data, throwsOnly isBadRequest (fst (usersFind env data w)))
  /\ (forall data,
        throwsOnly (isMessageCode [notUniqueUserName; unableToCreateUser])
          (fst (userCreate env data w)))
  /\ (forall data,
        throwsOnly (isMessageCode [notUniqueUserName; unableToUpdateUser])
          (fst (userUpdate env data w))).
Proof.
  split; [| split; [| split]].
  - intros H.
    destruct (read_failure_surfaced env w e H)
      as (R1 & R2 & R3 & R4 & R5 & R6 & R7).
    repeat (split; [assumption |]).
    split; intros data;
      [now apply userCreate_hash_fails | now apply userUpdate_hash_fails].
  - intros H0 H1.
    split; intros data;
      [now apply userCreate_insert_fails | now apply userUpdate_write_fails].
  - intros fallback. split; reflexivity.
  - destruct (reads_throw_bad_request_only env w)
      as (R1 & R2 & R3 & R4 & R5 & R6 & R7).
    repeat (split; [assumption |]).
    split; intros data; [apply userCreate_throws | apply userUpdate_throws].
Qed.

(** ** userDelete *)

Section Delete.

Variable env : Env.
Variable data : UserDeleteInputDto.t.

Let id := UserDeleteInputDto.id data.

Lemma userDelete_opened (w : World) :
  fault 0 w = None ->
  userDelete env data w
  = tryCatch
      (deleteAllSessions id (mkTransaction (users w) (sessions w)) ;;;
       result <- destroy env [IId id] (mkTransaction (users w) (sessions w)) ;;
       commit (mkTransaction (users w) (sessions w)) ;;;
       ret result)
      (fun error =>
         rollback (mkTransaction (users w) (sessions w)) ;;;
         throw BadRequestException)
      (advance CallTransaction w).
Proof.
  intros H. unfold userDelete, transaction. now step_ok H.
Qed.

Lemma whereItemsQuery_id (r : Row.t) :
  whereItemsQuery env [IId id] r = (Row.id r =? id).
Proof.
  unfold whereItemsQuery; simpl. apply andb_true_r.
Qed.

Lemma destroy_leaves (rows : list Row.t) :
  filter (fun r => negb (whereItemsQuery env [IId id] r)) rows
  = usersWithout id rows.
Proof.
  unfold usersWithout. apply filter_ext. intros r.
  now rewrite whereItemsQuery_id.
Qed.

Lemma destroy_counts (rows : list Row.t) :
  filter (whereItemsQuery env [IId id]) rows
  = filter (fun r => Row.id r =? id) rows.
Proof.
  apply filter_ext. intros r. apply whereItemsQuery_id.
Qed.

Ltac shift_faults H1 H2 H3 :=
  try rewrite <- (fault_advance 0 CallTransaction) in H1;
  try rewrite <- (fault_advance 1 CallTransaction) in H2;
  try rewrite <- (fault_advance 2 CallTransaction) in H3;
  try rewrite <- (fault_advance 0 (CallDeleteAllSessions id)) in H2;
  try rewrite <- (fault_advance 1 (CallDeleteAllSessions id)) in H3;
  try rewrite <- (fault_advance 0 (CallDestroy [IId id])) in H3.

(** Both deletions go through and the commit does: both are in the tables,
    and the result is the number of user rows deleted. *)
Lemma userDelete_succeeds (w : World) :
  fault 0 w = None -> fault 1 w = None -> fault 2 w = None -> fault 3 w = None ->
  fst (userDelete env data w)
  = Ok (Z.of_nat (List.length (filter (fun r => Row.id r =? id) (users w))))
  /\ bothRemoved id w (snd (userDelete env data w))
  /\ log (snd (userDelete env data w))
     = log w ++ [CallTransaction; CallDeleteAllSessions id;
                 CallDestroy [IId id]; CallCommit].
Proof.
  intros H0 H1 H2 H3. rewrite (userDelete_opened w H0).
  shift_faults H1 H2 H3.
  unfold tryCatch, bind, deleteAllSessions. step_ok H1.
  unfold destroy. step_ok H2.
  unfold commit, ret. step_ok H3.
  rewrite destroy_counts. split; [reflexivity | split].
  - split; simpl; [| reflexivity].
    apply filter_ext. intros r. now rewrite andb_true_r.
  - now rewrite <- !app_assoc.
Qed.

(** The deletion of the sessions fails: rollback and bad request. *)
Lemma userDelete_sessions_step_fails (w : World) (e : Exception) :
  fault 0 w = None -> fault 1 w = Some e ->
  fst (userDelete env data w) = Throw BadRequestException
  /\ sameTables w (snd (userDelete env data w))
  /\ log (snd (userDelete env data w))
     = log w ++ [CallTransaction; CallDeleteAllSessions id; CallRollback].
Proof.
  intros H0 H1. rewrite (userDelete_opened w H0).
  rewrite <- (fault_advance 0 CallTransaction) in H1.
  unfold tryCatch, bind, deleteAllSessions. step_fail H1.
  repeat split. now rewrite <- !app_assoc.
Qed.

(** The deletion of the user row fails after the sessions were deleted:
    rollback, which brings the sessions back, and bad request. *)
Lemma userDelete_destroy_fails (w : World) (e : Exception) :
  fault 0 w = None -> fault 1 w = None -> fault 2 w = Some e ->
  fst (userDelete env data w) = Throw BadRequestException
  /\ sameTables w (snd (userDelete env data w))
  /\ log (snd (userDelete env data w))
     = log w ++ [CallTransaction; CallDeleteAllSessions id;
                 CallDestroy [IId id]; CallRollback].
Proof.
  intros H0 H1 H2. rewrite (userDelete_opened w H0).
  rewrite <- (fault_advance 0 CallTransaction) in H1.
  rewrite <- (fault_advance 1 CallTransaction) in H2.
  rewrite <- (fault_advance 0 (CallDeleteAllSessions id)) in H2.
  unfold tryCatch, bind, deleteAllSessions. step_ok H1.
  unfold destroy. step_fail H2.
  repeat split. now rewrite <- !app_assoc.
Qed.

(** The commit fails: the database drops both deletions, and the method has
    already answered with the number of rows. *)
Lemma userDelete_commit_fails (w : World) (e : Exception) :
  fault 0 w = None -> fault 1 w = None -> fault 2 w = None ->
  fault 3 w = Some e ->
  fst (userDelete env data w)
  = Ok (Z.of_nat (List.length (filter (fun r => Row.id r =? id) (users w))))
  /\ sameTables w (snd (userDelete env data w)).
Proof.
  intros H0 H1 H2 H3. rewrite (userDelete_opened w H0).
  shift_faults H1 H2 H3.
  unfold tryCatch, bind, deleteAllSessions. step_ok H1.
  unfold destroy. step_ok H2.
  unfold commit, ret. step_fail H3.
  rewrite destroy_counts. repeat split.
Qed.

(** The transaction cannot be opened: nothing was deleted, and what leaves
    the handler is the TypeError of calling [rollback] on [undefined]. *)
Lemma userDelete_not_opened (w : World) (e : Exception) :
  fault 0 w = Some e ->
  userDelete env data w = (Throw TypeError, advance CallTransaction w).
Proof.
  intros H. unfold userDelete, transaction. now step_fail H.
Qed.

(** Whatever fails, the session rows of the user are removed exactly when
    the user row is: the tables are as they were, or both deletions are in
    them. *)
Lemma userDelete_atomic (w : World) :
  sameTables w (snd (userDelete env data w))
  \/ bothRemoved id w (snd (userDelete env data w)).
Proof.
  destruct (fault 0 w) as [e0 |] eqn:H0.
  { left. rewrite (userDelete_not_opened w e0 H0). now split. }
  destruct (fault 1 w) as [e1 |] eqn:H1.
  { left. now apply (userDelete_sessions_step_fails w e1). }
  destruct (fault 2 w) as [e2 |] eqn:H2.
  { left. now apply (userDelete_destroy_fails w e2). }
  destruct (fault 3 w) as [e3 |] eqn:H3.
  { left. now apply (userDelete_commit_fails w e3). }
  right. now apply userDelete_succeeds.
Qed.

End Delete.

(** C1: evaluated where a step of the transaction other than the two
    deletions fails.  When the transaction cannot be opened, the caller gets
    a TypeError, not a bad request; when the commit fails, both deletions are
    dropped and the caller still gets the number of rows as the result. *)
Theorem userDelete_unsurfaced_failures (env : Env) (data : UserDeleteInputDto.t)
  (us : list Row.t) (ss : list Session.t) (lg : list Call) (e : Exception)
  (rest : list (option Exception)) :
  userDelete env data (mkWorld us ss lg (Some e :: rest))
  = (Throw TypeError, mkWorld us ss (lg ++ [CallTransaction]) rest)
  /\ userDelete env data (mkWorld us ss lg (None :: None :: None :: Some e :: rest))
     = (Ok (Z.of_nat
              (List.length
                 (filter (fun r => Row.id r =? UserDeleteInputDto.id data) us))),
        mkWorld us ss
          (lg ++ [CallTransaction;
                  CallDeleteAllSessions (UserDeleteInputDto.id data);
                  CallDestroy [IId (UserDeleteInputDto.id data)];
                  CallCommit])
          rest).
Proof.
  split.
  - reflexivity.
  - unfold userDelete, transaction, tryCatch, bind, external; simpl.
    rewrite destroy_counts. unfold restore, setTables; simpl.
    now rewrite <- !app_assoc.
Qed.

(** ** The decorators *)

Lemma find_pointwise {A : Type} (f g : A -> bool) (l : list A) :
  (forall a, f a = g a) -> find f l = find g l.
Proof.
  intros E. induction l as [| a l IH]; simpl; [reflexivity |].
  rewrite E, IH. reflexivity.
Qed.

Section Decorators.

Variable env : Env.
Variables versionConflictCode rowNotFoundCode : string.

Lemma checkVersion_reads (id : Z) (w : World) :
  fault 0 w = None ->
  checkVersion env id w
  = (Ok (option_map (instanceOf (Some ["version"%string]))
           (find (fun r => Row.id r =? id) (users w))),
     advance (CallFindOne (checkVersionOptions id)) w).
Proof.
  intros H. unfold checkVersion, tryCatch, findOne. step_ok H.
  f_equal. f_equal. f_equal. apply find_pointwise. intros r.
  unfold whereItemsQuery; simpl. apply andb_true_r.
Qed.

Lemma userNameFind_reads (username : string) (w : World) :
  fault 0 w = None ->
  userNameFind env username w
  = (Ok (option_map (instanceOf (Some ["id"; "username"]%string))
           (find (fun r => String.eqb (Row.username r) username) (users w))),
     advance (CallFindOne (userNameFindOptions username)) w).
Proof.
  intros H. unfold userNameFind. rewrite tryCatch_bind_ret.
  unfold tryCatch, findOne. step_ok H.
  f_equal. f_equal. f_equal. apply find_pointwise. intros r.
  unfold whereItemsQuery; simpl. apply andb_true_r.
Qed.

(** The version check, once the re-read has gone through. *)
Lemma OptimisticLocking_checks {D A : Type} (flag : bool) (idOf versionOf : D -> Z)
  (method : D -> M A) (data : D) (w : World) :
  fault 0 w = None ->
  OptimisticLocking env versionConflictCode rowNotFoundCode flag idOf versionOf
    method data w
  = let w' := advance (CallFindOne (checkVersionOptions (idOf data))) w in
    match find (fun r => Row.id r =? idOf data) (users w) with
    | None => (Throw (MessageCodeError rowNotFoundCode), w')
    | Some r =>
        if Row.version r =? versionOf data
        then method data w'
        else (Throw (MessageCodeError versionConflictCode), w')
    end.
Proof.
  intros H. unfold OptimisticLocking, bind.
  rewrite (checkVersion_reads _ _ H).
  destruct (find _ (users w)) as [r |]; simpl; [| reflexivity].
  destruct (Row.version r =? versionOf data); reflexivity.
Qed.

(** The uniqueness check on the username, once the lookup has gone
    through. *)
Lemma CheckIsValueUnique_checks {D A : Type} (valueOf : D -> string)
  (currentId : D -> option Z) (code : string) (method : D -> M A) (data : D)
  (w : World) :
  fault 0 w = None ->
  CheckIsValueUnique (userNameFind env) valueOf currentId code method data w
  = let w' := advance (CallFindOne (userNameFindOptions (valueOf data))) w in
    match find (fun r => String.eqb (Row.username r) (valueOf data)) (users w) with
    | None => method data w'
    | Some r =>
        if sameId (Some (Row.id r)) (currentId data)
        then method data w'
        else (Throw (MessageCodeError code), w')
    end.
Proof.
  intros H. unfold CheckIsValueUnique, bind.
  rewrite (userNameFind_reads _ _ H).
  destruct (find _ (users w)) as [r |]; simpl; [| reflexivity].
  destruct (currentId data) as [b |]; [destruct (Row.id r =? b) |];
    reflexivity.
Qed.

End Decorators.

(** C2: userUpdate and userDelete take the version the caller read; the
    stored version is re-read through checkVersion before anything else is
    called, and when it differs from the caller's the call ends there with
    the conflict error, which is not the not-found error, the tables as they
    were; only when the versions agree does the mutation run. *)
Theorem stale_version_is_a_conflict (env : Env)
  (conflictCode notFoundCode : string)
  (update : UserUpdateInputDto.t) (delete : UserDeleteInputDto.t) (w : World) :
  conflictCode <> notFoundCode ->
  fault 0 w = None ->
  let currentU :=
    find (fun r => Row.id r =? UserUpdateInputDto.id update) (users w) in
  let currentD :=
    find (fun r => Row.id r =? UserDeleteInputDto.id delete) (users w) in
  let readU :=
    advance (CallFindOne (checkVersionOptions (UserUpdateInputDto.id update))) w in
  let readD :=
    advance (CallFindOne (checkVersionOptions (UserDeleteInputDto.id delete))) w in
  (forall r, currentU = Some r ->
     Row.version r <> UserUpdateInputDto.version update ->
     decorated_userUpdate env conflictCode notFoundCode update w
     = (Throw (MessageCodeError conflictCode), readU))
  /\ (forall r, currentD = Some r ->
        Row.version r <> UserDeleteInputDto.version delete ->
        decorated_userDelete env conflictCode notFoundCode delete w
        = (Throw (MessageCodeError conflictCode), readD))
  /\ (forall r, currentU = Some r ->
        Row.version r = UserUpdateInputDto.version update ->
        decorated_userUpdate env conflictCode notFoundCode update w
        = CheckIsValueUnique (userNameFind env) UserUpdateInputDto.username
            (fun data => Some (UserUpdateInputDto.id data)) notUniqueUserName
            (userUpdate env) update readU)
  /\ (forall r, currentD = Some r ->
        Row.version r = UserDeleteInputDto.version delete ->
        decorated_userDelete env conflictCode notFoundCode delete w
        = userDelete env delete readD)
  /\ (currentU = None ->
        decorated_userUpdate env conflictCode notFoundCode update w
        = (Throw (MessageCodeError notFoundCode), readU))
  /\ (currentD = None ->
        decorated_userDelete env conflictCode notFoundCode delete w
        = (Throw (MessageCodeError notFoundCode), readD))
  /\ sameTables w readU
  /\ sameTables w readD
  /\ MessageCodeError conflictCode <> MessageCodeError notFoundCode.
Proof.
  intros Hcodes H0 currentU currentD readU readD.
  unfold decorated_userUpdate, decorated_userDelete.
  rewrite !(OptimisticLocking_checks env conflictCode notFoundCode) by exact H0.
  fold currentU currentD readU readD. cbv zeta.
  repeat split.
  - intros r E V. rewrite E.
    destruct (Z.eqb_spec (Row.version r) (UserUpdateInputDto.version update));
      [contradiction | reflexivity].
  - intros r E V. rewrite E.
    destruct (Z.eqb_spec (Row.version r) (UserDeleteInputDto.version delete));
      [contradiction | reflexivity].
  - intros r E V. rewrite E, V, Z.eqb_refl. reflexivity.
  - intros r E V. rewrite E, V, Z.eqb_refl. reflexivity.
  - intros E. now rewrite E.
  - intros E. now rewrite E.
  - intros E. apply Hcodes. now inversion E.
Qed.

(** C3: userCreate and userUpdate look the username up through userNameFind
    before they write.  A row found for it (on update: a row other than the
    one being updated) ends the call with the code
    'user:validate:notUniqueUserName', after the lookups alone and with the
    tables as they were; when no row is found, or on update only the row
    itself, the mutation runs. *)
Theorem taken_username_is_rejected (env : Env)
  (conflictCode notFoundCode : string)
  (create : UserCreateInputDto.t) (update : UserUpdateInputDto.t) (w : World) :
  fault 0 w = None ->
  let holderC :=
    find (fun r => String.eqb (Row.username r) (UserCreateInputDto.username create))
      (users w) in
  let holderU :=
    find (fun r => String.eqb (Row.username r) (UserUpdateInputDto.username update))
      (users w) in
  let lookedUpC :=
    advance (CallFindOne (userNameFindOptions (UserCreateInputDto.username create)))
      w in
  let lookedUpU :=
    advance (CallFindOne (userNameFindOptions (UserUpdateInputDto.username update)))
      (advance (CallFindOne (checkVersionOptions (UserUpdateInputDto.id update)))
         w) in
  let versionAgrees :=
    exists r0,
      find (fun r => Row.id r =? UserUpdateInputDto.id update) (users w) = Some r0
      /\ Row.version r0 = UserUpdateInputDto.version update in
  (forall r, holderC = Some r ->
     decorated_userCreate env create w
     = (Throw (MessageCodeError notUniqueUserName), lookedUpC))
  /\ (holderC = None ->
        decorated_userCreate env create w = userCreate env create lookedUpC)
  /\ (forall r, fault 1 w = None -> versionAgrees -> holderU = Some r ->
        Row.id r <> UserUpdateInputDto.id update ->
        decorated_userUpdate env conflictCode notFoundCode update w
        = (Throw (MessageCodeError notUniqueUserName), lookedUpU))
  /\ (forall r, fault 1 w = None -> versionAgrees -> holderU = Some r ->
        Row.id r = UserUpdateInputDto.id update ->
        decorated_userUpdate env conflictCode notFoundCode update w
        = userUpdate env update lookedUpU)
  /\ (fault 1 w = None -> versionAgrees -> holderU = None ->
        decorated_userUpdate env conflictCode notFoundCode update w
        = userUpdate env update lookedUpU)
  /\ sameTables w lookedUpC
  /\ sameTables w lookedUpU.
Proof.
  intros H0 holderC holderU lookedUpC lookedUpU versionAgrees.
  assert (U : fault 1 w = None -> versionAgrees ->
              decorated_userUpdate env conflictCode notFoundCode update w
              = match holderU with
                | None => userUpdate env update lookedUpU
                | Some r =>
                    if Row.id r =? UserUpdateInputDto.id update
                    then userUpdate env update lookedUpU
                    else (Throw (MessageCodeError notUniqueUserName), lookedUpU)
                end).
  { intros H1 (r0 & E0 & V0). unfold decorated_userUpdate.
    rewrite (OptimisticLocking_checks env conflictCode notFoundCode) by exact H0.
    cbv zeta. rewrite E0, V0, Z.eqb_refl.
    rewrite <- (fault_advance 0
                  (CallFindOne (checkVersionOptions (UserUpdateInputDto.id update))))
      in H1.
    rewrite (CheckIsValueUnique_checks env) by exact H1.
    reflexivity. }
  unfold decorated_userCreate.
  rewrite (CheckIsValueUnique_checks env) by exact H0.
  fold holderC lookedUpC. cbv zeta.
  repeat split.
  - intros r E. now rewrite E.
  - intros E. now rewrite E.
  - intros r H1 V E N. rewrite (U H1 V), E.
    destruct (Z.eqb_spec (Row.id r) (UserUpdateInputDto.id update));
      [contradiction | reflexivity].
  - intros r H1 V E N. rewrite (U H1 V), E, N, Z.eqb_refl. reflexivity.
  - intros H1 V E. now rewrite (U H1 V), E.
Qed.

(** ** Ordering by displayName *)




Lemma insertRow_permutation (r : Row.t) (rows : list Row.t) :
  Permutation (r :: rows) (insertRow r rows).
Proof.
  induction rows as [| x rest IH]; simpl; [apply Permutation_refl |].
  destruct (displayNameLe r x); [apply Permutation_refl |].
  eapply perm_trans; [apply perm_swap |]. now apply perm_skip.
Qed.

Lemma sortByDisplayName_permutation (rows : list Row.t) :
  Permutation (sortByDisplayName rows) rows.
Proof.
  induction rows as [| r rest IH]; simpl; [constructor |].
  eapply perm_trans; [apply Permutation_sym, insertRow_permutation |].
  now apply perm_skip.
Qed.



Section Pages.

Context {A : Type}.
Variable R : A -> A -> Prop.





End Pages.

(** ** userList *)

Section Listing.

Variable env : Env.

Lemma where_displayName (textFilter : option string) (rows : list Row.t) :
  filter (whereItemsQuery env [IDisplayNameIRegexp (iRegexpOf textFilter)]) rows
  = filter (matchesFilter env textFilter) rows.
Proof.
  apply filter_ext. intros r. unfold whereItemsQuery, matchesFilter; simpl.
  apply andb_true_r.
Qed.

Lemma userList_selects (textFilter : option string) (page paging : Z)
  (rows : list Row.t) :
  selectRows env (userListOptions textFilter page paging) rows
  = pageOf page paging
      (sortByDisplayName (filter (matchesFilter env textFilter) rows)).
Proof.
  unfold selectRows, userListOptions, pageOf; simpl.
  now rewrite where_displayName.
Qed.

Lemma userList_goes_through (textFilter : option string) (page paging : Z)
  (w : World) :
  1 <= page -> 0 <= paging -> fault 0 w = None ->
  userList env textFilter page paging w
  = (Ok (map (instanceOf None)
           (pageOf page paging
              (sortByDisplayName
                 (filter (matchesFilter env textFilter) (users w))))),
     advance (CallFindAll (userListOptions textFilter page paging)) w).
Proof.
  intros Hpage Hpaging H. unfold userList, tryCatch, findAll.
  rewrite external_goes_through by exact H.
  rewrite userList_selects.
  assert (N : (isNegative (limit (userListOptions textFilter page paging))
               || isNegative (offset (userListOptions textFilter page paging)))%bool
              = false).
  { simpl. apply orb_false_iff. split; apply Z.ltb_ge; nia. }
  rewrite N. reflexivity.
Qed.

Lemma isEmpty_pattern (textFilter : option string) :
  isEmpty textFilter = true -> iRegexpOf textFilter = EmptyString.
Proof.
  destruct textFilter as [s |]; simpl; [| reflexivity].
  intros E. now rewrite E.
Qed.

End Listing.



(** C10: with an empty or missing text filter the pattern is the empty
    regular expression; the database matches it against every displayName,
    and userList answers as the listing without a condition does, whatever
    the page and the page size. *)
Theorem empty_filter_lists_like_no_filter (env : Env)
  (textFilter : option string) (page paging : Z) (w : World) :
  (forall subject, iRegexp env EmptyString subject = true) ->
  isEmpty textFilter = true ->
  iRegexpOf textFilter = EmptyString
  /\ (forall r, matchesFilter env textFilter r = true)
  /\ fst (userList env textFilter page paging w)
     = fst (unfilteredList env page paging w)
  /\ sameTables w (snd (userList env textFilter page paging w)).
Proof.
  intros Hall Hempty.
  pose proof (isEmpty_pattern textFilter Hempty) as Hpat.
  assert (Hmatch : forall r, matchesFilter env textFilter r = true).
  { intros r. unfold matchesFilter. rewrite Hpat. apply Hall. }
  repeat split; try assumption.
  - unfold userList, unfilteredList, tryCatch, findAll.
    destruct (fault_cases w) as [H | [e H]].
    + rewrite !external_goes_through by exact H.
      rewrite userList_selects.
      change (isNegative (limit (unfilteredListOptions page paging))
              || isNegative (offset (unfilteredListOptions page paging)))%bool
        with (isNegative (limit (userListOptions textFilter page paging))
              || isNegative (offset (userListOptions textFilter page paging)))%bool.
      destruct (isNegative (limit (userListOptions textFilter page paging))
                || isNegative (offset (userListOptions textFilter page paging)))%bool;
        [reflexivity |].
      simpl. do 3 f_equal. unfold selectRows, pageOf; simpl.
      do 3 f_equal. apply filter_ext. intros r. now rewrite Hmatch.
    + erewrite !external_fails by exact H. reflexivity.
  - unfold userList, tryCatch, findAll.
    destruct (fault_cases w) as [H | [e H]].
    + rewrite external_goes_through by exact H.
      destruct (isNegative _ || isNegative _)%bool; reflexivity.
    + erewrite external_fails by exact H. reflexivity.
  - unfold userList, tryCatch, findAll.
    destruct (fault_cases w) as [H | [e H]].
    + rewrite external_goes_through by exact H.
      destruct (isNegative _ || isNegative _)%bool; reflexivity.
    + erewrite external_fails by exact H. reflexivity.
Qed.

(** ** userCreate and userUpdate, when they go through *)

Lemma hd_error_filter {A : Type} (p : A -> bool) (l : list A) :
  hd_error (filter p l) = find p l.
Proof.
  induction l as [| a l IH]; simpl; [reflexivity |].
  destruct (p a); [reflexivity | exact IH].
Qed.

Lemma hd_error_map {A B : Type} (f : A -> B) (l : list A) :
  hd_error (map f l) = option_map f (hd_error l).
Proof.
  now destruct l.
Qed.

Section Writes.

Variable env : Env.

Lemma userCreate_goes_through (data : UserCreateInputDto.t) (w : World) :
  fault 0 w = None -> fault 1 w = None ->
  userCreate env data w
  = (Ok (instanceOf None (createdRow env data (users w))),
     setTables (users w ++ [createdRow env data (users w)]) (sessions w)
       (advance
          (CallCreate
             (userCreateValues data
                (bcryptHash env (UserCreateInputDto.passwordHash data) 12)))
          (advance (CallHash (UserCreateInputDto.passwordHash data) 12) w))).
Proof.
  intros H0 H1.
  rewrite <- (fault_advance 0 (CallHash (UserCreateInputDto.passwordHash data) 12))
    in H1.
  unfold userCreate, tryCatch, bind, hashPassword, hash.
  rewrite external_goes_through by exact H0.
  unfold ret, create. rewrite external_goes_through by exact H1.
  reflexivity.
Qed.

Lemma userCreate_succeeded (data : UserCreateInputDto.t) (w : World) (u : User.t) :
  fst (userCreate env data w) = Ok u -> fault 0 w = None /\ fault 1 w = None.
Proof.
  intros E.
  destruct (fault 0 w) as [e0 |] eqn:H0.
  { destruct (userCreate_hash_fails env data w e0 H0) as [F _]. congruence. }
  destruct (fault 1 w) as [e1 |] eqn:H1.
  { destruct (userCreate_insert_fails env data w e1 H0 H1) as [F _]. congruence. }
  now split.
Qed.

Lemma userUpdate_goes_through (data : UserUpdateInputDto.t) (w : World) :
  fault 0 w = None -> fault 1 w = None ->
  userUpdate env data w
  = (Ok (option_map (fun r => instanceOf None (assign (writtenValues env data) r))
           (find (hasId (UserUpdateInputDto.id data)) (users w))),
     setTables
       (map (fun r => if hasId (UserUpdateInputDto.id data) r
                      then assign (writtenValues env data) r else r)
          (users w))
       (sessions w)
       (advance
          (CallUpdate (writtenValues env data) [IId (UserUpdateInputDto.id data)])
          (advance (CallHash (UserUpdateInputDto.passwordHash data) 12) w))).
Proof.
  intros H0 H1.
  rewrite <- (fault_advance 0 (CallHash (UserUpdateInputDto.passwordHash data) 12))
    in H1.
  unfold userUpdate, tryCatch, bind, hashPassword, hash.
  rewrite external_goes_through by exact H0.
  unfold ret, update. rewrite external_goes_through by exact H1.
  cbv beta iota zeta. unfold snd at 1.
  assert (Q : forall r,
             whereItemsQuery env [IId (UserUpdateInputDto.id data)] r
             = hasId (UserUpdateInputDto.id data) r).
  { intros r. unfold whereItemsQuery, hasId; simpl. apply andb_true_r. }
  f_equal.
  - f_equal. rewrite !hd_error_map, hd_error_filter.
    rewrite (find_pointwise _ _ _ Q).
    change (users (advance _ (advance _ w))) with (users w).
    now destruct (find _ (users w)).
  - unfold writtenValues. f_equal. apply map_ext. intros r. now rewrite Q.
Qed.

Lemma userUpdate_succeeded (data : UserUpdateInputDto.t) (w : World)
  (val : option User.t) :
  fst (userUpdate env data w) = Ok val -> fault 0 w = None /\ fault 1 w = None.
Proof.
  intros E.
  destruct (fault 0 w) as [e0 |] eqn:H0.
  { destruct (userUpdate_hash_fails env data w e0 H0) as [F _]. congruence. }
  destruct (fault 1 w) as [e1 |] eqn:H1.
  { destruct (userUpdate_write_fails env data w e1 H0 H1) as [F _]. congruence. }
  now split.
Qed.

End Writes.

Section Written.

Variable env : Env.

Lemma userCreate_adds (data : UserCreateInputDto.t) (w : World) (u : User.t) :
  fst (userCreate env data w) = Ok u ->
  u = instanceOf None (createdRow env data (users w))
  /\ users (snd (userCreate env data w))
     = users w ++ [createdRow env data (users w)].
Proof.
  intros E. destruct (userCreate_succeeded env data w u E) as [H0 H1].
  rewrite (userCreate_goes_through env data w H0 H1) in *.
  simpl in *. split; [congruence | reflexivity].
Qed.

Lemma userUpdate_writes (data : UserUpdateInputDto.t) (w : World)
  (val : option User.t) :
  fst (userUpdate env data w) = Ok val ->
  let id := UserUpdateInputDto.id data in
  let w' := snd (userUpdate env data w) in
  val = option_map (fun r => instanceOf None (assign (writtenValues env data) r))
          (find (hasId id) (users w))
  /\ (forall r', In r' (users w') -> Row.id r' = id ->
        exists r, In r (users w) /\ Row.id r = id
                  /\ r' = assign (writtenValues env data) r)
  /\ (forall r, In r (users w) -> Row.id r = id ->
        In (assign (writtenValues env data) r) (users w'))
  /\ (forall r, In r (users w) -> Row.id r <> id -> In r (users w')).
Proof.
  intros E id w'. subst w'.
  destruct (userUpdate_succeeded env data w val E) as [H0 H1].
  rewrite (userUpdate_goes_through env data w H0 H1) in *.
  simpl in *. fold id in E |- *.
  split; [congruence |]. split; [| split].
  - intros r' Hin Hid. apply in_map_iff in Hin. destruct Hin as (r & Er & Hr).
    exists r. unfold hasId in Er.
    destruct (Z.eqb_spec (Row.id r) id) as [Y | N].
    + now repeat split.
    + subst r'. contradiction.
  - intros r Hin Hid. apply in_map_iff. exists r. split; [| assumption].
    unfold hasId. now rewrite Hid, Z.eqb_refl.
  - intros r Hin Hid. apply in_map_iff. exists r. split; [| assumption].
    unfold hasId. destruct (Z.eqb_spec (Row.id r) id); [contradiction | reflexivity].
Qed.

End Written.

(** C5: the password given to userCreate or userUpdate is not what is
    stored: the passwordHash of the row that userCreate adds, and of every
    row that userUpdate writes, is the output of the bcrypt hash of that
    password with 12 rounds. *)
Theorem stored_password_is_the_hash (env : Env) :
  (forall data w u,
     fst (userCreate env data w) = Ok u ->
     exists r,
       users (snd (userCreate env data w)) = users w ++ [r]
       /\ Row.passwordHash r
          = bcryptHash env (UserCreateInputDto.passwordHash data) 12
       /\ User.passwordHash u
          = Some (bcryptHash env (UserCreateInputDto.passwordHash data) 12))
  /\ (forall data w val,
        fst (userUpdate env data w) = Ok val ->
        let hashed := bcryptHash env (UserUpdateInputDto.passwordHash data) 12 in
        (forall r', In r' (users (snd (userUpdate env data w))) ->
           Row.id r' = UserUpdateInputDto.id data ->
           Row.passwordHash r' = hashed)
        /\ (forall r, In r (users w) -> Row.id r = UserUpdateInputDto.id data ->
              exists r', In r' (users (snd (userUpdate env data w)))
                         /\ Row.id r' = UserUpdateInputDto.id data
                         /\ Row.passwordHash r' = hashed)
        /\ (forall u, val = Some u -> User.passwordHash u = Some hashed)
        /\ List.In
             (CallHash (UserUpdateInputDto.passwordHash data) 12)
             (log (snd (userUpdate env data w)))).
Proof.
  split.
  - intros data w u E. destruct (userCreate_adds env data w u E) as [Eu Ew].
    exists (createdRow env data (users w)). subst u. now repeat split.
  - intros data w val E hashed.
    destruct (userUpdate_writes env data w val E) as (Ev & Hnew & Hold & _).
    split; [| split; [| split]].
    + intros r' Hin Hid. destruct (Hnew r' Hin Hid) as (r & _ & _ & ->).
      reflexivity.
    + intros r Hin Hid. exists (assign (writtenValues env data) r).
      split; [now apply Hold | now split].
    + intros u Eu. subst val.
      destruct (find _ (users w)); [| discriminate].
      simpl in Eu. now inversion Eu.
    + destruct (userUpdate_succeeded env data w val E) as [H0 H1].
      rewrite (userUpdate_goes_through env data w H0 H1). simpl.
      apply in_or_app. left. apply in_or_app. right. now left.
Qed.

(** C8: after a successful userCreate or userUpdate the stored displayName
    is the second name, the first name and the middle name of the input,
    in this order and with one blank between them, whatever displayName the
    input carries. *)
Theorem stored_displayName_is_composed (env : Env) :
  (forall data w u,
     fst (userCreate env data w) = Ok u ->
     exists r,
       users (snd (userCreate env data w)) = users w ++ [r]
       /\ Row.displayName r
          = (UserCreateInputDto.secondName data ++ " "
             ++ UserCreateInputDto.firstName data ++ " "
             ++ UserCreateInputDto.middleName data)%string
       /\ User.displayName u = Some (Row.displayName r))
  /\ (forall data w val,
        fst (userUpdate env data w) = Ok val ->
        let composed :=
          (UserUpdateInputDto.secondName data ++ " "
           ++ UserUpdateInputDto.firstName data ++ " "
           ++ UserUpdateInputDto.middleName data)%string in
        (forall r', In r' (users (snd (userUpdate env data w))) ->
           Row.id r' = UserUpdateInputDto.id data ->
           Row.displayName r' = composed)
        /\ (forall r, In r (users w) -> Row.id r = UserUpdateInputDto.id data ->
              exists r', In r' (users (snd (userUpdate env data w)))
                         /\ Row.id r' = UserUpdateInputDto.id data
                         /\ Row.displayName r' = composed)
        /\ (forall u, val = Some u -> User.displayName u = Some composed)).
Proof.
  split.
  - intros data w u E. destruct (userCreate_adds env data w u E) as [Eu Ew].
    exists (createdRow env data (users w)). subst u. now repeat split.
  - intros data w val E composed.
    destruct (userUpdate_writes env data w val E) as (Ev & Hnew & Hold & _).
    split; [| split].
    + intros r' Hin Hid. destruct (Hnew r' Hin Hid) as (r & _ & _ & ->).
      reflexivity.
    + intros r Hin Hid. exists (assign (writtenValues env data) r).
      split; [now apply Hold | now split].
    + intros u Eu. subst val.
      destruct (find _ (users w)); [| discriminate].
      simpl in Eu. now inversion Eu.
Qed.

(** ** What the mutations return *)

Lemma mapResult_ok {A B : Type} (f : A -> B) (m : M A) (w : World) (v : B) :
  fst (mapResult f m w) = Ok v -> exists a, fst (m w) = Ok a /\ v = f a.
Proof.
  unfold mapResult. destruct (m w) as [[a | e] w']; simpl; intros E;
    [| discriminate].
  exists a. split; [reflexivity | congruence].
Qed.

Lemma userDelete_returns (env : Env) (data : UserDeleteInputDto.t) (w : World)
  (n : Z) :
  fst (userDelete env data w) = Ok n ->
  n = Z.of_nat
        (List.length (filter (hasId (UserDeleteInputDto.id data)) (users w))).
Proof.
  intros E. unfold hasId.
  destruct (fault 0 w) as [e0 |] eqn:H0.
  { rewrite (userDelete_not_opened env data w e0 H0) in E. discriminate. }
  destruct (fault 1 w) as [e1 |] eqn:H1.
  { destruct (userDelete_sessions_step_fails env data w e1 H0 H1) as [F _].
    congruence. }
  destruct (fault 2 w) as [e2 |] eqn:H2.
  { destruct (userDelete_destroy_fails env data w e2 H0 H1 H2) as [F _].
    congruence. }
  destruct (fault 3 w) as [e3 |] eqn:H3.
  { destruct (userDelete_commit_fails env data w e3 H0 H1 H2 H3) as [F _].
    congruence. }
  destruct (userDelete_succeeds env data w H0 H1 H2 H3) as [F _].
  congruence.
Qed.

(** C7, as the code has it: userCreate returns the instance of the row it
    added and userUpdate the instance of the row it wrote (undefined when no
    row has the id), but a successful userDelete returns the number of user
    rows deleted, which is no user DTO. *)
Theorem mutations_return_entity_or_count (env : Env) (m : Mutation) (w : World)
  (v : Returned) :
  fst (mutate env m w) = Ok v ->
  match m with
  | MutationCreate data =>
      v = ReturnedUser (instanceOf None (createdRow env data (users w)))
      /\ isUserDto v = true
  | MutationUpdate data =>
      match find (hasId (UserUpdateInputDto.id data)) (users w) with
      | Some r =>
          v = ReturnedUser (instanceOf None (assign (writtenValues env data) r))
          /\ isUserDto v = true
      | None => v = ReturnedUndefined
      end
  | MutationDelete data =>
      v = ReturnedNumber
            (Z.of_nat
               (List.length
                  (filter (hasId (UserDeleteInputDto.id data)) (users w))))
      /\ isUserDto v = false
  end.
Proof.
  intros E. destruct m as [data | data | data]; simpl in E;
    apply mapResult_ok in E; destruct E as (a & Ea & ->).
  - destruct (userCreate_adds env data w a Ea) as [-> _]. now split.
  - destruct (userUpdate_writes env data w a Ea) as (-> & _).
    now destruct (find _ (users w)).
  - rewrite (userDelete_returns env data w a Ea). now split.
Qed.

(** ** usersFind *)

Section Finding.

Variable env : Env.
Variable r : Row.t.

Lemma or_over_ids (ids : list Z) :
  existsb
    (fun object =>
       negb (isEmptyObject object)
       && forallb (fun item => whereItemQuery env item r) object)
    (map (fun id => [IId id]) ids)
  = existsb (fun id => Row.id r =? id) ids.
Proof.
  induction ids as [| id ids IH]; simpl; [reflexivity |].
  now rewrite IH, andb_true_r.
Qed.

Lemma or_over_usernames (usernames : list string) :
  existsb
    (fun object =>
       negb (isEmptyObject object)
       && forallb (fun item => whereItemQuery env item r) object)
    (map (fun username => [IUsername username]) usernames)
  = existsb (fun username => String.eqb (Row.username r) username) usernames.
Proof.
  induction usernames as [| u us IH]; simpl; [reflexivity |].
  now rewrite IH, andb_true_r.
Qed.

Lemma usersFind_where (data : UserFindArgsDto.t) :
  whereItemsQuery env (where_ (usersFindOptions data)) r = wanted data r.
Proof.
  destruct data as [ids usernames].
  unfold whereItemsQuery, usersFindOptions, wanted, idWhereCondition,
    loginWhereCondition; simpl.
  rewrite andb_true_r, orb_false_r.
  f_equal.
  - destruct ids as [| id ids]; [reflexivity |].
    cbn [List.length Nat.ltb Nat.leb isEmptyObject negb andb forallb whereItemQuery].
    rewrite andb_true_r. apply (or_over_ids (id :: ids)).
  - destruct usernames as [| u us]; [reflexivity |].
    cbn [List.length Nat.ltb Nat.leb isEmptyObject negb andb forallb whereItemQuery].
    rewrite andb_true_r. apply (or_over_usernames (u :: us)).
Qed.

End Finding.

(** C9, as the code has it: usersFind returns the users whose id is among
    the ids or whose username is among the usernames, in table order; when
    both lists are empty no condition is left under the outer [Op.or], and
    the answer is the empty list. *)
Theorem usersFind_returns_the_wanted (env : Env) (data : UserFindArgsDto.t)
  (w : World) :
  fault 0 w = None ->
  fst (usersFind env data w)
  = Ok (map (instanceOf None) (filter (wanted data) (users w)))
  /\ (UserFindArgsDto.ids data = [] ->
      UserFindArgsDto.usernames data = [] ->
      fst (usersFind env data w) = Ok []).
Proof.
  intros H.
  assert (E : fst (usersFind env data w)
              = Ok (map (instanceOf None) (filter (wanted data) (users w)))).
  { unfold usersFind, tryCatch, findAll.
    rewrite external_goes_through by exact H.
    change (isNegative (limit (usersFindOptions data))
            || isNegative (offset (usersFindOptions data)))%bool with false.
    cbv iota. unfold selectRows.
    change (limit (usersFindOptions data)) with (@None Z).
    change (offset (usersFindOptions data)) with (@None Z).
    change (order (usersFindOptions data)) with (@nil (string * string)).
    simpl. do 2 f_equal. apply filter_ext. intros r. apply usersFind_where. }
  split; [exact E |].
  intros Hids Hnames. rewrite E. clear E.
  destruct data as [ids usernames]; simpl in *; subst.
  unfold wanted; simpl.
  induction (users w) as [| r rows IH]; simpl; [reflexivity | exact IH].
Qed.

(* ===================================================================== *)
(** * The statements at work on the small installation *)
(* ===================================================================== *)

Lemma stale_version_is_a_conflict_witness :
  decorated_userUpdate demoEnv "conflict" "notFound" staleUpdate demoWorld
  = (Throw (MessageCodeError "conflict"),
     advance (CallFindOne (checkVersionOptions 2)) demoWorld)
  /\ decorated_userDelete demoEnv "conflict" "notFound" staleDelete demoWorld
     = (Throw (MessageCodeError "conflict"),
        advance (CallFindOne (checkVersionOptions 1)) demoWorld).
Proof.
  assert (Hcodes : "conflict"%string <> "notFound"%string) by discriminate.
  assert (H0 : fault 0 demoWorld = None) by reflexivity.
  pose proof (stale_version_is_a_conflict demoEnv "conflict" "notFound"
                staleUpdate staleDelete demoWorld Hcodes H0) as W.
  cbv zeta in W. destruct W as (U & D & _).
  split.
  - apply (U ivanova); [reflexivity | simpl; lia].
  - apply (D petrov); [reflexivity | simpl; lia].
Defined.

Lemma taken_username_is_rejected_witness :
  decorated_userCreate demoEnv takenCreate demoWorld
  = (Throw (MessageCodeError notUniqueUserName),
     advance (CallFindOne (userNameFindOptions "petrov")) demoWorld)
  /\ decorated_userUpdate demoEnv "conflict" "notFound" takenUpdate demoWorld
     = (Throw (MessageCodeError notUniqueUserName),
        advance (CallFindOne (userNameFindOptions "sidorov"))
          (advance (CallFindOne (checkVersionOptions 2)) demoWorld)).
Proof.
  assert (H0 : fault 0 demoWorld = None) by reflexivity.
  pose proof (taken_username_is_rejected demoEnv "conflict" "notFound"
                takenCreate takenUpdate demoWorld H0) as W.
  cbv zeta in W. destruct W as (C & _ & U & _).
  split.
  - apply (C petrov). reflexivity.
  - apply (U sidorov).
    + reflexivity.
    + exists ivanova. split; reflexivity.
    + reflexivity.
    + simpl; lia.
Defined.


(** The filter at work on the installation: of the three users, "il" keeps
    the two that have a name starting with it. *)
Example userList_filters_by_the_pattern :
  filter (fun r => iRegexp demoEnv "(^il)|( il)" (Row.displayName r))
    (users demoWorld)
  = [petrov; sidorov]
  /\ fst (userList demoEnv (Some "il"%string) 1 2 demoWorld)
     = Ok [instanceOf None petrov; instanceOf None sidorov]
  /\ fst (userList demoEnv (Some "zzz"%string) 1 10 demoWorld) = Ok [].
Proof.
  repeat split.
Qed.

Lemma empty_filter_lists_like_no_filter_witness :
  iRegexpOf (Some EmptyString) = EmptyString
  /\ (forall r, matchesFilter demoEnv (Some EmptyString) r = true)
  /\ fst (userList demoEnv (Some EmptyString) 1 2 demoWorld)
     = fst (unfilteredList demoEnv 1 2 demoWorld)
  /\ sameTables demoWorld (snd (userList demoEnv (Some EmptyString) 1 2 demoWorld)).
Proof.
  apply (empty_filter_lists_like_no_filter demoEnv (Some EmptyString) 1 2 demoWorld);
    [intros subject; reflexivity | reflexivity].
Defined.

Lemma stored_password_is_the_hash_witness :
  (exists r,
     users (snd (userCreate demoEnv demoCreate demoWorld))
     = users demoWorld ++ [r]
     /\ Row.passwordHash r = "$2b$12$secret"%string
     /\ User.passwordHash
          (instanceOf None (createdRow demoEnv demoCreate (users demoWorld)))
        = Some "$2b$12$secret"%string)
  /\ (forall r', In r' (users (snd (userUpdate demoEnv demoUpdate demoWorld))) ->
        Row.id r' = 2 -> Row.passwordHash r' = "$2b$12$secret"%string).
Proof.
  split.
  - apply (proj1 (stored_password_is_the_hash demoEnv) demoCreate demoWorld).
    reflexivity.
  - eapply (proj2 (stored_password_is_the_hash demoEnv) demoUpdate demoWorld).
    reflexivity.
Defined.

Lemma failures_surface_once_witness :
  failedOnce BadRequestException brokenWorld
    (userFind demoEnv "petrov" brokenWorld)
  /\ failedOnce BadRequestException brokenWorld
       (userList demoEnv None 1 10 brokenWorld)
  /\ failedAfter 1 (MessageCodeError unableToCreateUser) brokenWorld
       (userCreate demoEnv demoCreate brokenWorld)
  /\ failedAfter 2 (MessageCodeError notUniqueUserName) lateBrokenWorld
       (userCreate demoEnv demoCreate lateBrokenWorld)
  /\ failedAfter 2 (MessageCodeError notUniqueUserName) lateBrokenWorld
       (userUpdate demoEnv demoUpdate lateBrokenWorld).
Proof.
  assert (B : fault 0 brokenWorld = Some (DriverError None)) by reflexivity.
  assert (L0 : fault 0 lateBrokenWorld = None) by reflexivity.
  assert (L1 : fault 1 lateBrokenWorld
               = Some (DriverError (Some notUniqueUserName))) by reflexivity.
  destruct (failures_surface_once demoEnv brokenWorld (DriverError None))
    as (First & _).
  destruct (failures_surface_once demoEnv lateBrokenWorld
              (DriverError (Some notUniqueUserName)))
    as (_ & Second & _).
  destruct (First B) as (R1 & _ & _ & _ & _ & R6 & _ & C & _).
  destruct (Second L0 L1) as (C2 & U2).
  repeat split; first [apply R1 | apply R6 | apply C | apply C2 | apply U2].
Defined.

Lemma mutations_return_entity_or_count_witness :
  ReturnedNumber 1
  = ReturnedNumber
      (Z.of_nat (List.length (filter (hasId 1) (users demoWorld))))
  /\ isUserDto (ReturnedNumber 1) = false.
Proof.
  apply (mutations_return_entity_or_count demoEnv (MutationDelete demoDelete)
           demoWorld (ReturnedNumber 1)).
  reflexivity.
Defined.

(** The two failures of userDelete that are not surfaced, on the
    installation. *)
Example userDelete_in_broken_world :
  fst (userDelete demoEnv demoDelete brokenWorld) = Throw TypeError
  /\ sameTables demoWorld (snd (userDelete demoEnv demoDelete brokenWorld)).
Proof.
  repeat split.
Qed.

Example userDelete_goes_through_on_demo :
  fst (userDelete demoEnv demoDelete demoWorld) = Ok 1
  /\ users (snd (userDelete demoEnv demoDelete demoWorld)) = [ivanova; sidorov]
  /\ sessions (snd (userDelete demoEnv demoDelete demoWorld))
     = [Session.mk 11 2].
Proof.
  repeat split.
Qed.

(** With ids alone usersFind returns those users and no other: the empty
    condition for the usernames does not select every row. *)
Example usersFind_by_id_alone :
  fst (usersFind demoEnv (UserFindArgsDto.mk [2] []) demoWorld)
  = Ok [instanceOf None ivanova].
Proof.
  reflexivity.
Qed.

Example userList_second_page :
  fst (userList demoEnv None 2 2 demoWorld) = Ok [instanceOf None sidorov]
  /\ fst (userList demoEnv (Some "il"%string) 1 5 demoWorld)
     = Ok [instanceOf None petrov; instanceOf None sidorov]
  /\ fst (userList demoEnv None 0 2 demoWorld) = Throw BadRequestException.
Proof.
  repeat split.
Qed.

(** C7 fails as stated: deleting user 1 of the installation succeeds and
    returns the number 1, which is no user DTO. *)
Lemma userDelete_returns_a_number :
  ~ (forall m w v,
       fst (mutate demoEnv m w) = Ok v -> isUserDto v = true).
Proof.
  intros H.
  specialize (H (MutationDelete demoDelete) demoWorld (ReturnedNumber 1)
                eq_refl).
  discriminate H.
Qed.

Lemma stored_displayName_is_composed_witness :
  (exists r,
     users (snd (userCreate demoEnv demoCreate demoWorld))
     = users demoWorld ++ [r]
     /\ Row.displayName r = "Orlov Oleg Olegovich"%string
     /\ User.displayName
          (instanceOf None (createdRow demoEnv demoCreate (users demoWorld)))
        = Some (Row.displayName r))
  /\ (forall r', In r' (users (snd (userUpdate demoEnv demoUpdate demoWorld))) ->
        Row.id r' = 2 -> Row.displayName r' = "Ivanova Anna Pavlovna"%string).
Proof.
  split.
  - apply (proj1 (stored_displayName_is_composed demoEnv) demoCreate demoWorld).
    reflexivity.
  - eapply (proj2 (stored_displayName_is_composed demoEnv) demoUpdate demoWorld).
    reflexivity.
Defined.

Lemma usersFind_returns_the_wanted_witness :
  fst (usersFind demoEnv (UserFindArgsDto.mk [2] ["petrov"%string]) demoWorld)
  = Ok (map (instanceOf None) [petrov; ivanova])
  /\ fst (usersFind demoEnv (UserFindArgsDto.mk [] []) demoWorld) = Ok [].
Proof.
  split.
  - apply (proj1 (usersFind_returns_the_wanted demoEnv
                    (UserFindArgsDto.mk [2] ["petrov"%string]) demoWorld eq_refl)).
  - apply (proj2 (usersFind_returns_the_wanted demoEnv
                    (UserFindArgsDto.mk [] []) demoWorld eq_refl));
      reflexivity.
Defined.

(** C9 fails as stated: with both lists empty usersFind returns no user of
    the installation, which has three. *)
Lemma usersFind_of_nothing_is_empty :
  fst (usersFind demoEnv (UserFindArgsDto.mk [] []) demoWorld) = Ok []
  /\ fst (usersFind demoEnv (UserFindArgsDto.mk [] []) demoWorld)
     <> Ok (map (instanceOf None) (users demoWorld)).
Proof.
  split; [reflexivity | discriminate].
Qed.

(* ===================================================================== *)
(** * Further properties of the service *)
(* ===================================================================== *)

(** ** The reads *)

Section ReadOutcomes.

Variable env : Env.

Lemma findOne_guarded_outcome (o : FindOptions) (w : World) :
  tryCatch (findOne env o) (fun _ => throw BadRequestException) w
  = (match fault 0 w with
     | None =>
         Ok (option_map (instanceOf (attributes o))
               (find (whereItemsQuery env (where_ o)) (users w)))
     | Some _ => Throw BadRequestException
     end,
     advance (CallFindOne o) w).
Proof.
  unfold tryCatch, findOne.
  destruct (fault 0 w) as [e |] eqn:H; [step_fail H | step_ok H]; reflexivity.
Qed.

Lemma findAll_guarded_outcome (o : FindOptions) (w : World) :
  tryCatch (findAll env o) (fun _ => throw BadRequestException) w
  = (match fault 0 w with
     | None =>
         if (isNegative (limit o) || isNegative (offset o))%bool
         then Throw BadRequestException
         else Ok (map (instanceOf (attributes o)) (selectRows env o (users w)))
     | Some _ => Throw BadRequestException
     end,
     advance (CallFindAll o) w).
Proof.
  unfold tryCatch, findAll.
  destruct (fault 0 w) as [e |] eqn:H; [step_fail H | step_ok H];
    [reflexivity |].
  destruct (isNegative (limit o) || isNegative (offset o))%bool; reflexivity.
Qed.

Lemma readOnce_advance {A : Type} (r : Result A) (c : Call) (w : World) :
  readOnce w (r, advance c w).
Proof.
  repeat split. apply callsMade_advance.
Qed.

End ReadOutcomes.

(** X1: a read never changes a row or a session, whether it succeeds or
    fails, and it makes exactly one call of the repository. *)
Theorem reads_leave_the_tables (env : Env) (w : World) :
  (forall username, readOnce w (userFind env username w))
  /\ (forall id, readOnce w (userRoleFind env id w))
  /\ (forall id, readOnce w (checkVersion env id w))
  /\ (forall username, readOnce w (userNameFind env username w))
  /\ (forall id, readOnce w (user env id w))
  /\ (forall textFilter page paging,
        readOnce w (userList env textFilter page paging w))
  /\ (forall data, readOnce w (usersFind env data w)).
Proof.
  repeat split; intros;
    unfold userFind, userRoleFind, checkVersion, userNameFind, user, userList,
      usersFind;
    rewrite ?tryCatch_bind_ret;
    rewrite ?findOne_guarded_outcome, ?findAll_guarded_outcome;
    apply readOnce_advance.
Qed.

Lemma guarded_findOne_found (env : Env) (o : FindOptions) (w : World) (u : User.t) :
  fst (tryCatch (findOne env o) (fun _ => throw BadRequestException) w)
  = Ok (Some u) ->
  fault 0 w = None
  /\ exists r,
       find (whereItemsQuery env (where_ o)) (users w) = Some r
       /\ u = instanceOf (attributes o) r.
Proof.
  rewrite findOne_guarded_outcome; simpl.
  destruct (fault 0 w) as [e |]; [discriminate |].
  destruct (find _ (users w)) as [r |]; simpl; [| discriminate].
  intros E. split; [reflexivity |]. exists r. split; [reflexivity | congruence].
Qed.

(** X2: what each lookup loads.  userFind hands out the id, the username,
    the role and the password hash, but neither displayName nor version;
    userRoleFind only the role, checkVersion only the version and
    userNameFind only the id and the username, so that none of these three
    carries the password hash; user loads every attribute. *)
Theorem lookups_load_their_attributes (env : Env) (w : World) (u : User.t) :
  (forall username,
     fst (userFind env username w) = Ok (Some u) ->
     loaded u = [true; true; true; false; true; false])
  /\ (forall id,
        fst (userRoleFind env id w) = Ok (Some u) ->
        loaded u = [false; false; false; false; true; false])
  /\ (forall id,
        fst (checkVersion env id w) = Ok (Some u) ->
        loaded u = [false; false; false; false; false; true])
  /\ (forall username,
        fst (userNameFind env username w) = Ok (Some u) ->
        loaded u = [true; true; false; false; false; false])
  /\ (forall id,
        fst (user env id w) = Ok (Some u) ->
        loaded u = [true; true; true; true; true; true]).
Proof.
  repeat split; intros x E;
    unfold userFind, userRoleFind, checkVersion, userNameFind, user in E;
    rewrite ?tryCatch_bind_ret in E;
    apply guarded_findOne_found in E;
    destruct E as (_ & r & _ & ->); reflexivity.
Qed.

Lemma lookups_load_their_attributes_witness :
  loaded (instanceOf (Some ["id"; "userRoleName"; "username"; "passwordHash"]%string)
            petrov)
  = [true; true; true; false; true; false]
  /\ loaded (instanceOf (Some ["id"; "username"]%string) petrov)
     = [true; true; false; false; false; false].
Proof.
  split.
  - apply (proj1 (lookups_load_their_attributes demoEnv demoWorld _) "petrov"%string).
    reflexivity.
  - apply (proj1 (proj2 (proj2 (proj2
             (lookups_load_their_attributes demoEnv demoWorld _))))
             "petrov"%string).
    reflexivity.
Defined.

(** ** Looking a user up by name *)

Lemma find_nothing {A : Type} (p : A -> bool) (l : list A) :
  find p l = None <-> (forall a, In a l -> p a = false).
Proof.
  split; [apply find_none |].
  induction l as [| a l IH]; simpl; intros H; [reflexivity |].
  rewrite (H a (or_introl eq_refl)). apply IH. intros b Hb. apply H. now right.
Qed.

Lemma where_username (env : Env) (username : string) (r : Row.t) :
  whereItemsQuery env [IUsername username] r = String.eqb (Row.username r) username.
Proof.
  unfold whereItemsQuery; simpl. apply andb_true_r.
Qed.

Lemma where_id (env : Env) (id : Z) (r : Row.t) :
  whereItemsQuery env [IId id] r = hasId id r.
Proof.
  unfold whereItemsQuery, hasId; simpl. apply andb_true_r.
Qed.

Lemma userFind_outcome (env : Env) (username : string) (w : World) :
  fault 0 w = None ->
  fst (userFind env username w)
  = Ok (option_map
          (instanceOf
             (Some ["id"; "userRoleName"; "username"; "passwordHash"]%string))
          (find (fun r => String.eqb (Row.username r) username) (users w))).
Proof.
  intros H. unfold userFind. rewrite tryCatch_bind_ret, findOne_guarded_outcome.
  rewrite H; simpl. do 2 f_equal. apply find_pointwise. apply where_username.
Qed.

(** X3: when its query goes through, userFind answers undefined exactly when
    no user has the username; otherwise it answers with a stored user of
    that username, whose id, role and password hash it hands out. *)
Theorem userFind_finds_by_username (env : Env) (username : string) (w : World) :
  fault 0 w = None ->
  (fst (userFind env username w) = Ok None
   <-> (forall r, In r (users w) -> Row.username r <> username))
  /\ (forall u,
        fst (userFind env username w) = Ok (Some u) ->
        exists r,
          In r (users w)
          /\ Row.username r = username
          /\ User.username u = Some username
          /\ User.id u = Some (Row.id r)
          /\ User.userRoleName u = Some (Row.userRoleName r)
          /\ User.passwordHash u = Some (Row.passwordHash r)).
Proof.
  intros H. rewrite (userFind_outcome env username w H). split.
  - split.
    + intros E r Hin Hname.
      destruct (find _ (users w)) as [r0 |] eqn:F; [discriminate |].
      pose proof (find_none _ _ F r Hin) as N. simpl in N.
      rewrite Hname, String.eqb_refl in N. discriminate.
    + intros N.
      assert (F : find (fun r => String.eqb (Row.username r) username) (users w)
                  = None).
      { apply find_nothing. intros r Hin. apply String.eqb_neq. now apply N. }
      now rewrite F.
  - intros u E.
    destruct (find _ (users w)) as [r |] eqn:F; [| discriminate].
    apply find_some in F. destruct F as [Hin Hname].
    apply String.eqb_eq in Hname.
    exists r. simpl in E. inversion E; subst u. subst username.
    now repeat split.
Qed.

Lemma userFind_finds_by_username_witness :
  (fst (userFind demoEnv "nobody" demoWorld) = Ok None
   <-> (forall r, In r (users demoWorld) -> Row.username r <> "nobody"%string))
  /\ (forall u,
        fst (userFind demoEnv "nobody" demoWorld) = Ok (Some u) ->
        exists r,
          In r (users demoWorld)
          /\ Row.username r = "nobody"%string
          /\ User.username u = Some "nobody"%string
          /\ User.id u = Some (Row.id r)
          /\ User.userRoleName u = Some (Row.userRoleName r)
          /\ User.passwordHash u = Some (Row.passwordHash r)).
Proof.
  apply (userFind_finds_by_username demoEnv "nobody" demoWorld). reflexivity.
Defined.

(** ** userCreate *)

Lemma find_app_nothing {A : Type} (p : A -> bool) (l l' : list A) :
  find p l = None -> find p (l ++ l') = find p l'.
Proof.
  induction l as [| a l IH]; simpl; [reflexivity |].
  destruct (p a); [discriminate | exact IH].
Qed.

Lemma find_app_something {A : Type} (p : A -> bool) (l l' : list A) (a : A) :
  find p l = Some a -> find p (l ++ l') = Some a.
Proof.
  induction l as [| b l IH]; simpl; [discriminate |].
  destruct (p b); [trivial | exact IH].
Qed.

Lemma find_single {A : Type} (p : A -> bool) (a : A) :
  p a = true -> find p [a] = Some a.
Proof.
  intros H. simpl. now rewrite H.
Qed.

(** X4: userCreate adds one row at the end of the table when it succeeds and
    none when it fails; it never changes or removes a row that was there, and
    it never touches the sessions. *)
Theorem userCreate_keeps_what_was_there (env : Env) (data : UserCreateInputDto.t)
  (w : World) :
  sessions (snd (userCreate env data w)) = sessions w
  /\ match fst (userCreate env data w) with
     | Ok u =>
         exists r,
           users (snd (userCreate env data w)) = users w ++ [r]
           /\ u = instanceOf None r
           /\ Row.username r = UserCreateInputDto.username data
           /\ Row.userRoleName r = UserCreateInputDto.userRoleName data
     | Throw _ => users (snd (userCreate env data w)) = users w
     end.
Proof.
  destruct (fault 0 w) as [e0 |] eqn:H0.
  { destruct (userCreate_hash_fails env data w e0 H0) as (F & (U & S) & _).
    rewrite F. now split. }
  destruct (fault 1 w) as [e1 |] eqn:H1.
  { destruct (userCreate_insert_fails env data w e1 H0 H1) as (F & (U & S) & _).
    rewrite F. now split. }
  rewrite (userCreate_goes_through env data w H0 H1); simpl.
  split; [reflexivity |].
  exists (createdRow env data (users w)). now repeat split.
Qed.

(** X5: a user that userCreate has added can be found by userFind under the
    username given, with the role given and with the hash of the password
    given, whenever no earlier row holds that username; and userFind never
    answers undefined for that username afterwards. *)
Theorem created_user_is_found (env : Env) (data : UserCreateInputDto.t)
  (w : World) (u : User.t) :
  fst (userCreate env data w) = Ok u ->
  fault 0 (snd (userCreate env data w)) = None ->
  let name := UserCreateInputDto.username data in
  let answer := fst (userFind env name (snd (userCreate env data w))) in
  answer <> Ok None
  /\ ((forall r, In r (users w) -> Row.username r <> name) ->
      exists found,
        answer = Ok (Some found)
        /\ User.id found = User.id u
        /\ User.username found = Some name
        /\ User.userRoleName found = Some (UserCreateInputDto.userRoleName data)
        /\ User.passwordHash found
           = Some (bcryptHash env (UserCreateInputDto.passwordHash data) 12)).
Proof.
  intros E H name answer. subst answer.
  destruct (userCreate_adds env data w u E) as [Eu Ew].
  rewrite (userFind_outcome env name _ H), Ew.
  assert (Hit : find (fun r => String.eqb (Row.username r) name)
                  [createdRow env data (users w)]
                = Some (createdRow env data (users w))).
  { apply find_single. apply String.eqb_refl. }
  split.
  - destruct (find (fun r => String.eqb (Row.username r) name) (users w))
      as [r0 |] eqn:F.
    + rewrite (find_app_something _ _ _ _ F). discriminate.
    + rewrite (find_app_nothing _ _ _ F), Hit. discriminate.
  - intros Fresh.
    assert (F : find (fun r => String.eqb (Row.username r) name) (users w) = None).
    { apply find_nothing. intros r Hin. apply String.eqb_neq. now apply Fresh. }
    rewrite (find_app_nothing _ _ _ F), Hit.
    eexists. split; [reflexivity |]. subst u. now repeat split.
Qed.

Lemma created_user_is_found_witness :
  fst (userFind demoEnv "orlov" (snd (userCreate demoEnv demoCreate demoWorld)))
  <> Ok None
  /\ ((forall r, In r (users demoWorld) -> Row.username r <> "orlov"%string) ->
      exists found,
        fst (userFind demoEnv "orlov"
               (snd (userCreate demoEnv demoCreate demoWorld)))
        = Ok (Some found)
        /\ User.id found = Some 4
        /\ User.username found = Some "orlov"%string
        /\ User.userRoleName found = Some "user"%string
        /\ User.passwordHash found = Some "$2b$12$secret"%string).
Proof.
  apply (created_user_is_found demoEnv demoCreate demoWorld
           (instanceOf None (createdRow demoEnv demoCreate (users demoWorld))));
    reflexivity.
Defined.

(** ** userUpdate *)

Section Updating.

Variable env : Env.
Variable data : UserUpdateInputDto.t.

Lemma assign_has_the_id (r : Row.t) :
  hasId (UserUpdateInputDto.id data) (assign (writtenValues env data) r) = true.
Proof.
  unfold hasId; simpl. apply Z.eqb_refl.
Qed.

Lemma written_ids (rows : list Row.t) :
  map Row.id
    (map (fun r => if hasId (UserUpdateInputDto.id data) r
                   then assign (writtenValues env data) r else r) rows)
  = map Row.id rows.
Proof.
  rewrite map_map. apply map_ext. intros r. unfold hasId.
  destruct (Z.eqb_spec (Row.id r) (UserUpdateInputDto.id data)) as [E | N];
    [now rewrite E | reflexivity].
Qed.

Lemma written_first (rows : list Row.t) :
  find (hasId (UserUpdateInputDto.id data))
    (map (fun r => if hasId (UserUpdateInputDto.id data) r
                   then assign (writtenValues env data) r else r) rows)
  = option_map (assign (writtenValues env data))
      (find (hasId (UserUpdateInputDto.id data)) rows).
Proof.
  induction rows as [| r rows IH]; simpl; [reflexivity |].
  destruct (hasId (UserUpdateInputDto.id data) r) eqn:E.
  - now rewrite assign_has_the_id.
  - now rewrite E.
Qed.

Lemma written_nowhere (rows : list Row.t) :
  (forall r, In r rows -> Row.id r <> UserUpdateInputDto.id data) ->
  map (fun r => if hasId (UserUpdateInputDto.id data) r
                then assign (writtenValues env data) r else r) rows
  = rows.
Proof.
  intros N. rewrite <- (map_id rows) at 2. apply map_ext_in. intros r Hin.
  unfold hasId.
  destruct (Z.eqb_spec (Row.id r) (UserUpdateInputDto.id data)) as [E | _];
    [now apply N in Hin | reflexivity].
Qed.

Lemma written_others (rows : list Row.t) :
  filter (fun r => negb (hasId (UserUpdateInputDto.id data) r))
    (map (fun r => if hasId (UserUpdateInputDto.id data) r
                   then assign (writtenValues env data) r else r) rows)
  = filter (fun r => negb (hasId (UserUpdateInputDto.id data) r)) rows.
Proof.
  induction rows as [| r rows IH]; simpl; [reflexivity |].
  destruct (hasId (UserUpdateInputDto.id data) r) eqn:E; simpl.
  - now rewrite assign_has_the_id.
  - rewrite E; simpl. now rewrite IH.
Qed.

(** The tables after userUpdate, in each of its three courses. *)
Lemma userUpdate_tables (w : World) :
  sessions (snd (userUpdate env data w)) = sessions w
  /\ (users (snd (userUpdate env data w)) = users w
      \/ users (snd (userUpdate env data w))
         = map (fun r => if hasId (UserUpdateInputDto.id data) r
                         then assign (writtenValues env data) r else r)
             (users w)).
Proof.
  destruct (fault 0 w) as [e0 |] eqn:H0.
  { destruct (userUpdate_hash_fails env data w e0 H0) as (_ & (U & S) & _).
    split; [exact S | now left]. }
  destruct (fault 1 w) as [e1 |] eqn:H1.
  { destruct (userUpdate_write_fails env data w e1 H0 H1) as (_ & (U & S) & _).
    split; [exact S | now left]. }
  rewrite (userUpdate_goes_through env data w H0 H1); simpl.
  split; [reflexivity | now right].
Qed.

End Updating.

(** X6: userUpdate never adds or removes a row and never changes the id of
    one: the ids of the table are the same, in the same order, after the
    call as before, whether it succeeds or fails.  Every row with another id
    is left as it was, and so are the sessions. *)
Theorem userUpdate_keeps_the_other_rows (env : Env) (data : UserUpdateInputDto.t)
  (w : World) :
  map Row.id (users (snd (userUpdate env data w))) = map Row.id (users w)
  /\ sessions (snd (userUpdate env data w)) = sessions w
  /\ filter (fun r => negb (hasId (UserUpdateInputDto.id data) r))
       (users (snd (userUpdate env data w)))
     = filter (fun r => negb (hasId (UserUpdateInputDto.id data) r)) (users w).
Proof.
  destruct (userUpdate_tables env data w) as (S & [U | U]); rewrite U.
  - now repeat split.
  - split; [apply written_ids | split; [exact S | apply written_others]].
Qed.

(** X7: when no row has the id, userUpdate does not fail: with the hash and
    the write going through it answers undefined and the tables are as they
    were. *)
Theorem userUpdate_of_a_missing_id (env : Env) (data : UserUpdateInputDto.t)
  (w : World) :
  fault 0 w = None -> fault 1 w = None ->
  (forall r, In r (users w) -> Row.id r <> UserUpdateInputDto.id data) ->
  fst (userUpdate env data w) = Ok None
  /\ sameTables w (snd (userUpdate env data w))
  /\ callsMade w (snd (userUpdate env data w)) = 2%nat.
Proof.
  intros H0 H1 N. rewrite (userUpdate_goes_through env data w H0 H1); simpl.
  assert (F : find (hasId (UserUpdateInputDto.id data)) (users w) = None).
  { apply find_nothing. intros r Hin. unfold hasId.
    apply Z.eqb_neq. now apply N. }
  rewrite F, (written_nowhere env data (users w) N).
  repeat split. apply callsMade_advance2.
Qed.

Lemma userUpdate_of_a_missing_id_witness :
  fst (userUpdate demoEnv
         (UserUpdateInputDto.mk 9 1 "nobody" "secret" "N" "N" "N" "user" None)
         demoWorld) = Ok None
  /\ sameTables demoWorld
       (snd (userUpdate demoEnv
               (UserUpdateInputDto.mk 9 1 "nobody" "secret" "N" "N" "N" "user" None)
               demoWorld))
  /\ callsMade demoWorld
       (snd (userUpdate demoEnv
               (UserUpdateInputDto.mk 9 1 "nobody" "secret" "N" "N" "N" "user" None)
               demoWorld)) = 2%nat.
Proof.
  apply (userUpdate_of_a_missing_id demoEnv
           (UserUpdateInputDto.mk 9 1 "nobody" "secret" "N" "N" "N" "user" None)
           demoWorld); [reflexivity | reflexivity |].
  intros r Hin. simpl in Hin.
  destruct Hin as [<- | [<- | [<- | []]]]; simpl; lia.
Defined.

(** X8: after a successful userUpdate, user finds a user under the id
    exactly when userUpdate returned one, and the user it finds carries the
    id, the username and the role that were written, the displayName
    composed of the three names and the hash of the password. *)
Theorem updated_user_reads_back (env : Env) (data : UserUpdateInputDto.t)
  (w : World) (val : option User.t) :
  fst (userUpdate env data w) = Ok val ->
  fault 0 (snd (userUpdate env data w)) = None ->
  exists found,
    fst (user env (UserUpdateInputDto.id data) (snd (userUpdate env data w)))
    = Ok found
    /\ (found = None <-> val = None)
    /\ (forall u, found = Some u ->
          User.id u = Some (UserUpdateInputDto.id data)
          /\ User.username u = Some (UserUpdateInputDto.username data)
          /\ User.userRoleName u = Some (UserUpdateInputDto.userRoleName data)
          /\ User.displayName u
             = Some (UserUpdateInputDto.secondName data ++ " "
                     ++ UserUpdateInputDto.firstName data ++ " "
                     ++ UserUpdateInputDto.middleName data)%string
          /\ User.passwordHash u
             = Some (bcryptHash env (UserUpdateInputDto.passwordHash data) 12)).
Proof.
  intros E H.
  destruct (userUpdate_succeeded env data w val E) as [H0 H1].
  unfold user. rewrite findOne_guarded_outcome, H. simpl.
  rewrite (find_pointwise _ _ _ (where_id env (UserUpdateInputDto.id data))).
  rewrite (userUpdate_goes_through env data w H0 H1) in E |- *. simpl in *.
  rewrite written_first. inversion E as [Ev]. clear E.
  destruct (find (hasId (UserUpdateInputDto.id data)) (users w)) as [r |];
    simpl; eexists; (split; [reflexivity |]).
  - split; [split; discriminate |].
    intros u Eu. inversion Eu. now repeat split.
  - split; [split; reflexivity |]. discriminate.
Qed.

Lemma updated_user_reads_back_witness :
  exists found,
    fst (user demoEnv 2 (snd (userUpdate demoEnv demoUpdate demoWorld)))
    = Ok found
    /\ (found = None
        <-> Some (instanceOf None (assign (writtenValues demoEnv demoUpdate)
                                     ivanova)) = None)
    /\ (forall u, found = Some u ->
          User.id u = Some 2
          /\ User.username u = Some "ivanova"%string
          /\ User.userRoleName u = Some "user"%string
          /\ User.displayName u = Some "Ivanova Anna Pavlovna"%string
          /\ User.passwordHash u = Some "$2b$12$secret"%string).
Proof.
  apply (updated_user_reads_back demoEnv demoUpdate demoWorld); reflexivity.
Defined.

(** ** userDelete *)

Section Deleting.

Variable env : Env.
Variable data : UserDeleteInputDto.t.

Lemma userDelete_success_world (w : World) :
  fault 0 w = None -> fault 1 w = None -> fault 2 w = None -> fault 3 w = None ->
  userDelete env data w
  = (Ok (Z.of_nat
           (List.length
              (filter (hasId (UserDeleteInputDto.id data)) (users w)))),
     mkWorld (usersWithout (UserDeleteInputDto.id data) (users w))
       (sessionsWithout (UserDeleteInputDto.id data) (sessions w))
       (log w ++ [CallTransaction;
                  CallDeleteAllSessions (UserDeleteInputDto.id data);
                  CallDestroy [IId (UserDeleteInputDto.id data)];
                  CallCommit])
       (skipn 4 (faults w))).
Proof.
  intros H0 H1 H2 H3. rewrite (userDelete_opened env data w H0).
  rewrite <- (fault_advance 0 CallTransaction) in H1.
  rewrite <- (fault_advance 1 CallTransaction) in H2.
  rewrite <- (fault_advance 2 CallTransaction) in H3.
  rewrite <- (fault_advance 0 (CallDeleteAllSessions (UserDeleteInputDto.id data)))
    in H2.
  rewrite <- (fault_advance 1 (CallDeleteAllSessions (UserDeleteInputDto.id data)))
    in H3.
  rewrite <- (fault_advance 0 (CallDestroy [IId (UserDeleteInputDto.id data)]))
    in H3.
  unfold tryCatch, bind, deleteAllSessions. step_ok H1.
  unfold destroy. step_ok H2.
  unfold commit, ret. step_ok H3.
  rewrite (destroy_counts env data). unfold advance, setTables; simpl.
  rewrite <- !app_assoc; simpl. f_equal. f_equal.
  - apply filter_ext. intros r. now rewrite andb_true_r.
  - now destruct (faults w) as [| ? [| ? [| ? [| ? ?]]]].
Qed.

Lemma userDelete_commit_fails_log (w : World) (e : Exception) :
  fault 0 w = None -> fault 1 w = None -> fault 2 w = None ->
  fault 3 w = Some e ->
  log (snd (userDelete env data w))
  = log w ++ [CallTransaction;
              CallDeleteAllSessions (UserDeleteInputDto.id data);
              CallDestroy [IId (UserDeleteInputDto.id data)];
              CallCommit].
Proof.
  intros H0 H1 H2 H3. rewrite (userDelete_opened env data w H0).
  rewrite <- (fault_advance 0 CallTransaction) in H1.
  rewrite <- (fault_advance 1 CallTransaction) in H2.
  rewrite <- (fault_advance 2 CallTransaction) in H3.
  rewrite <- (fault_advance 0 (CallDeleteAllSessions (UserDeleteInputDto.id data)))
    in H2.
  rewrite <- (fault_advance 1 (CallDeleteAllSessions (UserDeleteInputDto.id data)))
    in H3.
  rewrite <- (fault_advance 0 (CallDestroy [IId (UserDeleteInputDto.id data)]))
    in H3.
  unfold tryCatch, bind, deleteAllSessions. step_ok H1.
  unfold destroy. step_ok H2.
  unfold commit, ret. step_fail H3.
  now rewrite <- !app_assoc.
Qed.

End Deleting.

(** X9: the five courses of userDelete.  It opens a transaction first,
    deletes the sessions before the user row, and ends every transaction it
    has opened by exactly one commit or rollback.  It throws only when it has
    not committed, and then the tables are as they were; when it returns, it
    returns the number of rows that had the id, and the tables are without
    the user and its sessions or, the commit having failed, as they were. *)
Theorem userDelete_courses (env : Env) (data : UserDeleteInputDto.t) (w : World) :
  let id := UserDeleteInputDto.id data in
  let out := userDelete env data w in
  let calls (l : list Call) := log (snd out) = log w ++ l in
  (calls [CallTransaction]
   /\ fst out = Throw TypeError /\ sameTables w (snd out))
  \/ (calls [CallTransaction; CallDeleteAllSessions id; CallRollback]
      /\ fst out = Throw BadRequestException /\ sameTables w (snd out))
  \/ (calls [CallTransaction; CallDeleteAllSessions id; CallDestroy [IId id];
             CallRollback]
      /\ fst out = Throw BadRequestException /\ sameTables w (snd out))
  \/ (calls [CallTransaction; CallDeleteAllSessions id; CallDestroy [IId id];
             CallCommit]
      /\ fst out
         = Ok (Z.of_nat (List.length (filter (hasId id) (users w))))
      /\ (sameTables w (snd out) \/ bothRemoved id w (snd out))).
Proof.
  intros id out calls. subst out calls. cbv beta.
  destruct (fault 0 w) as [e0 |] eqn:H0.
  { left. rewrite (userDelete_not_opened env data w e0 H0). now repeat split. }
  destruct (fault 1 w) as [e1 |] eqn:H1.
  { right; left.
    destruct (userDelete_sessions_step_fails env data w e1 H0 H1) as (F & T & L).
    split; [exact L | split; [exact F | exact T]]. }
  destruct (fault 2 w) as [e2 |] eqn:H2.
  { right; right; left.
    destruct (userDelete_destroy_fails env data w e2 H0 H1 H2) as (F & T & L).
    split; [exact L | split; [exact F | exact T]]. }
  right; right; right.
  destruct (fault 3 w) as [e3 |] eqn:H3.
  - destruct (userDelete_commit_fails env data w e3 H0 H1 H2 H3) as (F & T).
    split; [now apply (userDelete_commit_fails_log env data w e3) |].
    split; [exact F | now left].
  - rewrite (userDelete_success_world env data w H0 H1 H2 H3); simpl.
    split; [reflexivity |]. split; [reflexivity |]. right. now split.
Qed.

Lemma filter_twice {A : Type} (p : A -> bool) (l : list A) :
  filter p (filter p l) = filter p l.
Proof.
  induction l as [| a l IH]; simpl; [reflexivity |].
  destruct (p a) eqn:E; simpl; [now rewrite E, IH | exact IH].
Qed.

(** X10: userDelete removes nothing but the user it is given and the
    sessions of that user: every row with another id and every session of
    another user is in the tables afterwards, in every course. *)
Theorem userDelete_spares_the_others (env : Env) (data : UserDeleteInputDto.t)
  (w : World) :
  usersWithout (UserDeleteInputDto.id data)
    (users (snd (userDelete env data w)))
  = usersWithout (UserDeleteInputDto.id data) (users w)
  /\ sessionsWithout (UserDeleteInputDto.id data)
       (sessions (snd (userDelete env data w)))
     = sessionsWithout (UserDeleteInputDto.id data) (sessions w).
Proof.
  destruct (userDelete_atomic env data w) as [[U S] | [U S]]; rewrite U, S.
  - now split.
  - unfold usersWithout, sessionsWithout. now rewrite !filter_twice.
Qed.

Lemma unique_id_once (id : Z) (rows : list Row.t) :
  NoDup (map Row.id rows) -> (List.length (filter (hasId id) rows) <= 1)%nat.
Proof.
  induction rows as [| r rows IH]; simpl; intros N; [lia |].
  inversion N as [| ? ? Hnotin Hrest]; subst.
  unfold hasId at 1. destruct (Z.eqb_spec (Row.id r) id) as [E | _].
  - assert (F : filter (hasId id) rows = []).
    { destruct (filter (hasId id) rows) as [| x xs] eqn:G; [reflexivity |].
      exfalso. apply Hnotin.
      assert (Hx : In x (filter (hasId id) rows)) by (rewrite G; now left).
      apply filter_In in Hx. destruct Hx as [Hin Hid].
      unfold hasId in Hid. apply Z.eqb_eq in Hid.
      rewrite E, <- Hid. now apply in_map. }
    rewrite F. simpl. lia.
  - now apply IH.
Qed.

Lemma filter_nothing {A : Type} (p : A -> bool) (l : list A) :
  filter p l = [] <-> (forall a, In a l -> p a = false).
Proof.
  split.
  - intros E a Hin. destruct (p a) eqn:P; [| reflexivity].
    assert (Hf : In a (filter p l)) by (apply filter_In; now split).
    rewrite E in Hf. destruct Hf.
  - induction l as [| a l IH]; simpl; intros H; [reflexivity |].
    rewrite (H a (or_introl eq_refl)). apply IH. intros b Hb. apply H. now right.
Qed.

(** X11: the number a successful userDelete returns is 0 exactly when no row
    has the id, so that deleting a user that does not exist is no error; and
    it is 0 or 1 when the ids of the table are unique. *)
Theorem userDelete_counts_the_rows (env : Env) (data : UserDeleteInputDto.t)
  (w : World) (n : Z) :
  fst (userDelete env data w) = Ok n ->
  (n = 0 <-> (forall r, In r (users w) -> Row.id r <> UserDeleteInputDto.id data))
  /\ 0 <= n <= Z.of_nat (List.length (users w))
  /\ (NoDup (map Row.id (users w)) -> n = 0 \/ n = 1).
Proof.
  intros E. rewrite (userDelete_returns env data w n E).
  set (hits := filter (hasId (UserDeleteInputDto.id data)) (users w)).
  split; [| split].
  - split.
    + intros Z0 r Hin Hid.
      assert (Hh : hits = []) by (destruct hits; [reflexivity | simpl in Z0; lia]).
      pose proof (proj1 (filter_nothing _ _) Hh r Hin) as N.
      unfold hasId in N. rewrite Hid, Z.eqb_refl in N. discriminate.
    + intros N.
      assert (Hh : hits = []).
      { apply filter_nothing. intros r Hin. unfold hasId.
        apply Z.eqb_neq. now apply N. }
      now rewrite Hh.
  - pose proof (filter_length_le (hasId (UserDeleteInputDto.id data)) (users w)).
    fold hits in H. lia.
  - intros N. pose proof (unique_id_once (UserDeleteInputDto.id data) _ N).
    fold hits in H. lia.
Qed.

Lemma userDelete_counts_the_rows_witness :
  (1 = 0 <-> (forall r, In r (users demoWorld) -> Row.id r <> 1))
  /\ 0 <= 1 <= Z.of_nat (List.length (users demoWorld))
  /\ (NoDup (map Row.id (users demoWorld)) -> 1 = 0 \/ 1 = 1).
Proof.
  apply (userDelete_counts_the_rows demoEnv demoDelete demoWorld 1).
  reflexivity.
Defined.

Lemma nth_after_skipn {A : Type} (m n : nat) (l : list A) (d : A) :
  nth n (skipn m l) d = nth (m + n) l d.
Proof.
  revert l. induction m as [| m IH]; intros l; simpl; [reflexivity |].
  destruct l as [| a l]; simpl; [now destruct n | apply IH].
Qed.

Lemma nobody_left (id : Z) (rows : list Row.t) :
  find (hasId id) (usersWithout id rows) = None
  /\ filter (hasId id) (usersWithout id rows) = [].
Proof.
  assert (N : forall r, In r (usersWithout id rows) -> hasId id r = false).
  { intros r Hin. apply filter_In in Hin. destruct Hin as [_ Hneg].
    unfold hasId. now destruct (Row.id r =? id). }
  split; [now apply find_nothing | now apply filter_nothing].
Qed.

(** X12: after a userDelete in which nothing fails the user is gone: user,
    userRoleFind and checkVersion answer undefined for the id, no session of
    the user is left, and deleting the same user again returns 0. *)
Theorem deleted_user_is_gone (env : Env) (data : UserDeleteInputDto.t)
  (w : World) :
  quiet w ->
  let id := UserDeleteInputDto.id data in
  let w' := snd (userDelete env data w) in
  fst (user env id w') = Ok None
  /\ fst (userRoleFind env id w') = Ok None
  /\ fst (checkVersion env id w') = Ok None
  /\ filter (fun s => Session.userId s =? id) (sessions w') = []
  /\ fst (userDelete env data w') = Ok 0.
Proof.
  intros Q id w'. subst w'.
  rewrite (userDelete_success_world env data w (Q 0%nat) (Q 1%nat) (Q 2%nat)
             (Q 3%nat)).
  simpl.
  set (w' := mkWorld _ _ _ _).
  assert (Q' : quiet w').
  { intros n. unfold fault.
    change (faults w') with (skipn 4 (faults w)).
    rewrite (nth_after_skipn 4 n). apply (Q (4 + n)%nat). }
  destruct (nobody_left id (users w)) as [Fnone Fnil].
  fold id.
  assert (R : forall attrs incl,
             fst (tryCatch
                    (findOne env
                       {| where_ := [IId id]; attributes := attrs;
                          include := incl; limit := None; offset := None;
                          order := [] |})
                    (fun _ => throw BadRequestException) w')
             = Ok None).
  { intros attrs incl. rewrite findOne_guarded_outcome, (Q' 0%nat). simpl.
    rewrite (find_pointwise _ _ _ (where_id env id)).
    unfold id in *. now rewrite Fnone. }
  split; [apply R |].
  split; [unfold userRoleFind; rewrite tryCatch_bind_ret; apply R |].
  split; [apply R |].
  split.
  - apply filter_nothing. intros s Hin. apply filter_In in Hin.
    destruct Hin as [_ Hneg]. now destruct (Session.userId s =? id).
  - rewrite (userDelete_success_world env data w' (Q' 0%nat) (Q' 1%nat)
               (Q' 2%nat) (Q' 3%nat)).
    simpl. unfold id in *. now rewrite Fnil.
Qed.

Lemma deleted_user_is_gone_witness :
  fst (user demoEnv 1 (snd (userDelete demoEnv demoDelete demoWorld))) = Ok None
  /\ fst (userRoleFind demoEnv 1 (snd (userDelete demoEnv demoDelete demoWorld)))
     = Ok None
  /\ fst (checkVersion demoEnv 1 (snd (userDelete demoEnv demoDelete demoWorld)))
     = Ok None
  /\ filter (fun s => Session.userId s =? 1)
       (sessions (snd (userDelete demoEnv demoDelete demoWorld))) = []
  /\ fst (userDelete demoEnv demoDelete
            (snd (userDelete demoEnv demoDelete demoWorld))) = Ok 0.
Proof.
  apply (deleted_user_is_gone demoEnv demoDelete demoWorld).
  intros n. unfold fault; simpl. now destruct n.
Defined.

(** ** userList, page after page *)

Lemma firstn_plus {A : Type} (a b : nat) (l : list A) :
  firstn (a + b) l = firstn a l ++ firstn b (skipn a l).
Proof.
  revert l. induction a as [| a IH]; intros l; simpl; [reflexivity |].
  destruct l as [| x l]; simpl; [now rewrite firstn_nil | now rewrite IH].
Qed.

Section Tiling.

Variable env : Env.
Variable textFilter : option string.
Variable paging : Z.
Variable w : World.

Hypothesis paging_not_negative : 0 <= paging.
Hypothesis query_goes_through : fault 0 w = None.

Let listing : list Row.t :=
  sortByDisplayName (filter (matchesFilter env textFilter) (users w)).

Lemma page_users (p : nat) :
  usersOf (fst (userList env textFilter (Z.of_nat (S p)) paging w))
  = map (instanceOf None)
      (firstn (Z.to_nat paging) (skipn (p * Z.to_nat paging) listing)).
Proof.
  rewrite userList_goes_through by (try assumption; lia).
  simpl fst. unfold usersOf, pageOf. fold listing. do 3 f_equal.
  rewrite Z2Nat.inj_mul by lia. f_equal. lia.
Qed.

Lemma first_page_users (k : nat) :
  usersOf (fst (userList env textFilter 1 (Z.of_nat k * paging) w))
  = map (instanceOf None) (firstn (k * Z.to_nat paging) listing).
Proof.
  rewrite userList_goes_through by (try assumption; nia).
  simpl fst. unfold usersOf, pageOf. fold listing.
  change (Z.to_nat ((1 - 1) * (Z.of_nat k * paging))) with 0%nat.
  cbn [skipn]. do 2 f_equal.
  rewrite Z2Nat.inj_mul by lia. now rewrite Nat2Z.id.
Qed.

Lemma pages_in_a_row (k : nat) :
  flat_map
    (fun p => usersOf (fst (userList env textFilter (Z.of_nat p) paging w)))
    (seq 1 k)
  = map (instanceOf None) (firstn (k * Z.to_nat paging) listing).
Proof.
  induction k as [| k IH]; [reflexivity |].
  rewrite seq_S, flat_map_app, IH. cbn [flat_map]. rewrite app_nil_r.
  change (1 + k)%nat with (S k). rewrite page_users.
  rewrite <- map_app. f_equal.
  replace (S k * Z.to_nat paging)%nat
    with (k * Z.to_nat paging + Z.to_nat paging)%nat by lia.
  now rewrite firstn_plus.
Qed.

End Tiling.

(** With distinct displayNames there is one ascending listing only, so that
    the listing does not depend on how a sort would order equal names. *)
Lemma sorted_listing_is_unique (l l' : list Row.t) :
  NoDup (map Row.displayName l) ->
  StronglySorted displayNameOrder l ->
  StronglySorted displayNameOrder l' ->
  Permutation l l' ->
  l = l'.
Proof.
  revert l'. induction l as [| a t IH]; intros l' N S S' P.
  - now apply Permutation_nil in P.
  - destruct l' as [| b t'].
    { apply Permutation_sym, Permutation_nil in P. discriminate. }
    inversion N as [| ? ? Hnotin Nt]; subst.
    inversion S as [| ? ? St Ha]; subst.
    inversion S' as [| ? ? St' Hb]; subst.
    assert (E : a = b).
    { assert (Ina : In a (b :: t'))
        by (apply (Permutation_in a P); now left).
      assert (Inb : In b (a :: t))
        by (apply (Permutation_in b (Permutation_sym P)); now left).
      destruct Ina as [-> | Ina]; [reflexivity |].
      destruct Inb as [-> | Inb]; [reflexivity |].
      exfalso. apply Hnotin.
      rewrite Forall_forall in Ha, Hb.
      pose proof (Ha b Inb) as Hab. pose proof (Hb a Ina) as Hba.
      unfold displayNameOrder, displayNameLe in Hab, Hba.
      rewrite (String.leb_antisym _ _ Hab Hba). now apply in_map. }
    subst b. f_equal. apply IH; try assumption.
    now apply Permutation_cons_inv in P.
Qed.

Lemma distinct_names_after_filter (p : Row.t -> bool) (rows : list Row.t) :
  NoDup (map Row.displayName rows) ->
  NoDup (map Row.displayName (filter p rows)).
Proof.
  induction rows as [| r rows IH]; simpl; intros N; [constructor |].
  inversion N as [| ? ? Hnotin Nrest]; subst.
  destruct (p r); simpl; [| now apply IH].
  constructor; [| now apply IH].
  intros Hin. apply Hnotin. apply in_map_iff in Hin.
  destruct Hin as (x & Ex & Hx). apply filter_In in Hx.
  rewrite <- Ex. apply in_map. now destruct Hx.
Qed.

Lemma distinct_names_in_a_window (n : nat) (rows : list Row.t) :
  NoDup (map Row.displayName rows) ->
  NoDup (map Row.displayName (firstn n rows)).
Proof.
  revert rows. induction n as [| n IH]; intros rows N; simpl; [constructor |].
  destruct rows as [| r rows]; simpl; [constructor |].
  inversion N as [| ? ? Hnotin Nrest]; subst.
  constructor; [| now apply IH].
  intros Hin. apply Hnotin. apply in_map_iff in Hin.
  destruct Hin as (x & Ex & Hx). rewrite <- Ex. apply in_map.
  rewrite <- (firstn_skipn n rows). apply in_or_app. now left.
Qed.

Lemma distinct_names_of_instances (rows : list Row.t) :
  NoDup (map Row.displayName rows) ->
  NoDup (map User.displayName (map (instanceOf None) rows)).
Proof.
  induction rows as [| r rows IH]; simpl; intros N; [constructor |].
  inversion N as [| ? ? Hnotin Nrest]; subst.
  constructor; [| now apply IH].
  intros Hin. apply Hnotin. rewrite map_map in Hin. apply in_map_iff in Hin.
  destruct Hin as (x & Ex & Hx). simpl in Ex.
  assert (Ex' : Row.displayName x = Row.displayName r) by congruence.
  rewrite <- Ex'. now apply in_map.
Qed.

(** X13: when no two stored users have the same displayName, the pages of
    userList tile the listing: the first [k] pages of size [paging], one
    after the other, are the first page of size [k * paging], so that no
    user is skipped between two pages, and no user is returned on two of
    them. *)
Theorem userList_pages_tile (env : Env) (textFilter : option string)
  (paging : Z) (k : nat) (w : World) :
  0 <= paging -> fault 0 w = None ->
  NoDup (map Row.displayName (users w)) ->
  flat_map
    (fun p => usersOf (fst (userList env textFilter (Z.of_nat p) paging w)))
    (seq 1 k)
  = usersOf (fst (userList env textFilter 1 (Z.of_nat k * paging) w))
  /\ NoDup
       (map User.displayName
          (flat_map
             (fun p =>
                usersOf (fst (userList env textFilter (Z.of_nat p) paging w)))
             (seq 1 k))).
Proof.
  intros Hp H Distinct. split.
  - rewrite (pages_in_a_row env textFilter paging w Hp H k).
    now rewrite (first_page_users env textFilter paging w Hp H k).
  - rewrite (pages_in_a_row env textFilter paging w Hp H k).
    apply distinct_names_of_instances, distinct_names_in_a_window.
    eapply Permutation_NoDup.
    + apply Permutation_map, Permutation_sym, sortByDisplayName_permutation.
    + now apply distinct_names_after_filter.
Qed.

Lemma userList_pages_tile_witness :
  flat_map
    (fun p => usersOf (fst (userList demoEnv None (Z.of_nat p) 1 demoWorld)))
    (seq 1 3)
  = usersOf (fst (userList demoEnv None 1 (Z.of_nat 3 * 1) demoWorld))
  /\ NoDup
       (map User.displayName
          (flat_map
             (fun p =>
                usersOf (fst (userList demoEnv None (Z.of_nat p) 1 demoWorld)))
             (seq 1 3))).
Proof.
  apply (userList_pages_tile demoEnv None 1 3 demoWorld); [lia | reflexivity |].
  simpl. repeat (constructor; [simpl; intuition discriminate |]). constructor.
Defined.

(** X14: past the end of the listing userList answers with the empty list,
    not with an error: a page that starts at or after the number of stored
    users is empty, and so is every page of size 0. *)
Theorem userList_past_the_end (env : Env) (textFilter : option string)
  (page paging : Z) (w : World) :
  1 <= page -> 0 <= paging -> fault 0 w = None ->
  (Z.of_nat (List.length (users w)) <= (page - 1) * paging \/ paging = 0) ->
  fst (userList env textFilter page paging w) = Ok [].
Proof.
  intros Hpage Hpaging H Hend.
  rewrite userList_goes_through by assumption. simpl fst. unfold pageOf.
  destruct Hend as [Hend | ->]; [| reflexivity].
  rewrite skipn_all2; [now rewrite firstn_nil |].
  rewrite (Permutation_length (sortByDisplayName_permutation _)).
  pose proof (filter_length_le (matchesFilter env textFilter) (users w)).
  lia.
Qed.

Lemma userList_past_the_end_witness :
  fst (userList demoEnv None 3 2 demoWorld) = Ok [].
Proof.
  apply (userList_past_the_end demoEnv None 3 2 demoWorld);
    [lia | lia | reflexivity | left; simpl; lia].
Defined.

(** X15: a negative page size, or a page number and a page size whose
    offset [(page - 1) * paging] is negative, never gives a listing: the
    database refuses the query and userList throws a bad request, without
    touching the tables. *)
Theorem userList_refuses_a_negative_window (env : Env)
  (textFilter : option string) (page paging : Z) (w : World) :
  paging < 0 \/ (page - 1) * paging < 0 ->
  fst (userList env textFilter page paging w) = Throw BadRequestException
  /\ sameTables w (snd (userList env textFilter page paging w)).
Proof.
  intros Hneg. unfold userList. rewrite findAll_guarded_outcome. simpl.
  split; [| now split].
  destruct (fault 0 w); [reflexivity |].
  assert (N : ((paging <? 0) || ((page - 1) * paging <? 0))%bool = true).
  { apply orb_true_iff. destruct Hneg; [left | right]; now apply Z.ltb_lt. }
  now rewrite N.
Qed.

Lemma userList_refuses_a_negative_window_witness :
  fst (userList demoEnv None 0 2 demoWorld) = Throw BadRequestException
  /\ sameTables demoWorld (snd (userList demoEnv None 0 2 demoWorld)).
Proof.
  apply (userList_refuses_a_negative_window demoEnv None 0 2 demoWorld).
  right; lia.
Defined.

(** ** usersFind *)

Lemma existsb_same_members {A : Type} (f : A -> bool) (l l' : list A) :
  (forall x, In x l <-> In x l') -> existsb f l = existsb f l'.
Proof.
  intros M. apply eq_iff_eq_true. rewrite !existsb_exists.
  split; intros (x & Hin & Hf); exists x; (split; [now apply M | exact Hf]).
Qed.

(** X16: usersFind depends on which ids and usernames it is given, not on
    their order nor on how often one is given: two inputs with the same ids
    and the same usernames get the same answer. *)
Theorem usersFind_ignores_order_and_repetition (env : Env)
  (data data' : UserFindArgsDto.t) (w : World) :
  (forall id, In id (UserFindArgsDto.ids data)
              <-> In id (UserFindArgsDto.ids data')) ->
  (forall username, In username (UserFindArgsDto.usernames data)
                    <-> In username (UserFindArgsDto.usernames data')) ->
  fst (usersFind env data w) = fst (usersFind env data' w).
Proof.
  intros Hids Hnames. unfold usersFind. rewrite !findAll_guarded_outcome.
  simpl. destruct (fault 0 w); [reflexivity |].
  do 2 f_equal. unfold selectRows; simpl.
  apply filter_ext. intros r.
  change (whereItemsQuery env (where_ (usersFindOptions data)) r
          = whereItemsQuery env (where_ (usersFindOptions data')) r).
  rewrite !usersFind_where. unfold wanted.
  f_equal; now apply existsb_same_members.
Qed.

Lemma usersFind_ignores_order_and_repetition_witness :
  fst (usersFind demoEnv (UserFindArgsDto.mk [3; 1; 3] ["petrov"%string])
         demoWorld)
  = fst (usersFind demoEnv
           (UserFindArgsDto.mk [1; 3] ["petrov"; "petrov"]%string) demoWorld).
Proof.
  apply (usersFind_ignores_order_and_repetition demoEnv
           (UserFindArgsDto.mk [3; 1; 3] ["petrov"%string])
           (UserFindArgsDto.mk [1; 3] ["petrov"; "petrov"]%string) demoWorld);
    intros x; simpl; tauto.
Defined.
